(** * simpleenv: loading environment variables into a struct

    A shallow embedding of the Go package [simpleenv] (functions [Load],
    [validateConstraints], [parseValueFromEnv], [assignFieldValue],
    [matchRegex] and [isValidURL]) and of the parts of the Go standard
    library it calls, followed by the properties of the binding that the
    specification states.

    Go strings are byte strings: they are modelled by [string], whose
    characters are bytes.  The struct handed to [Load] is modelled by the
    list of its fields (their description in the struct type) and the list
    of the values they hold; the process environment is a finite map from
    names to values. *)

From Stdlib Require Import ZArith String Ascii List Bool Lia.
From Stdlib Require Import Floats.SpecFloat.
From stdpp Require Import base option list gmap strings.

Local Open Scope string_scope.
Local Open Scope Z_scope.

(** ** Package [strings] and [slices] *)

(** [strings.HasPrefix(s, prefix)]. *)
Definition strings_HasPrefix (s prefix : string) : bool := String.prefix prefix s.

(** [s[n:]], for [n <= len(s)]. *)
Fixpoint string_drop (n : nat) (s : string) : string :=
  match n, s with
  | S k, String _ s' => string_drop k s'
  | _, _ => s
  end.

(** [strings.TrimPrefix(s, prefix)]: [s] without the leading [prefix], or
    [s] itself when it does not start with [prefix]. *)
Definition strings_TrimPrefix (s prefix : string) : string :=
  if strings_HasPrefix s prefix then string_drop (String.length prefix) s else s.

(** The loop of [strings.Split] for a non-empty separator: [cur] is the piece
    being read, [skip] the number of bytes of a separator occurrence that are
    still to be passed.  Occurrences are found left to right and do not
    overlap. *)
Fixpoint split_from (sep : string) (skip : nat) (cur s : string) : list string :=
  match s with
  | EmptyString => [cur]
  | String c s' =>
      match skip with
      | S k => split_from sep k cur s'
      | O =>
          if String.prefix sep s
          then cur :: split_from sep (String.length sep - 1) "" s'
          else split_from sep 0 (cur +:+ String c "") s'
      end
  end.

(** [strings.Split(s, sep)].  With an empty separator Go splits after each
    UTF-8 sequence; the package only ever passes [";"] and [","], and the
    model splits after each byte there. *)
Definition strings_Split (s sep : string) : list string :=
  match sep with
  | EmptyString => (fun c => String c "") <$> list_ascii_of_string s
  | _ => split_from sep 0 "" s
  end.

(** [slices.Contains(l, v)]. *)
Definition slices_Contains (l : list string) (v : string) : bool :=
  existsb (String.eqb v) l.

(** ASCII lower case of a byte, [lower] of package [strconv] and the ASCII
    part of [strings.ToLower]. *)
Definition lower (c : ascii) : ascii :=
  let n := N_of_ascii c in
  if ((65 <=? n) && (n <=? 90))%N then ascii_of_N (n + 32) else c.

Fixpoint strings_ToLower (s : string) : string :=
  match s with
  | EmptyString => EmptyString
  | String c s' => String (lower c) (strings_ToLower s')
  end.

(** [strings.EqualFold(s, t)] on ASCII text: equality up to the case of the
    letters A-Z.  (Go folds Unicode letters too; the only caller compares the
    scheme of a parsed URL, which is ASCII.) *)
Definition strings_EqualFold (s t : string) : bool :=
  String.eqb (strings_ToLower s) (strings_ToLower t).

(** ** The standard library behind the package

    [strconv.Atoi], [strconv.ParseFloat] (bit size 64), [regexp.Compile] with
    [Regexp.MatchString], and [url.Parse].  A failing call ([err != nil])
    is [None]; the package never reads the value that comes with an error. *)

(** A [float64]: an IEEE-754 binary64 number. *)
Definition float64 : Type := spec_float.

(** The fields of [url.URL] that the package reads. *)
Record URL := { Scheme : string; Host : string }.

Class GoLib := {
  strconv_Atoi : string -> option Z;
  strconv_ParseFloat : string -> option float64;
  Regexp : Type;
  regexp_Compile : string -> option Regexp;
  Regexp_MatchString : Regexp -> string -> bool;
  url_Parse : string -> option URL
}.

(** ** Package [reflect]: struct types, fields and values *)

(** [reflect.Kind], as far as [parseValueFromEnv] tells kinds apart. *)
Inductive Kind := KString | KInt | KFloat64 | KOther.

(** A Go type ([reflect.Type]): its name as [%v] prints it, and its kind.  A
    defined type such as [type Port int] has kind [KInt] and is a type
    different from [int]. *)
Record rtype := { rtype_String : string; rtype_Kind : Kind }.

Definition string_type : rtype := {| rtype_String := "string"; rtype_Kind := KString |}.
Definition int_type : rtype := {| rtype_String := "int"; rtype_Kind := KInt |}.
Definition float64_type : rtype := {| rtype_String := "float64"; rtype_Kind := KFloat64 |}.

#[global] Instance Kind_eq_dec : EqDecision Kind.
Proof. solve_decision. Defined.

#[global] Instance rtype_eq_dec : EqDecision rtype.
Proof. solve_decision. Defined.

(** [reflect.StructField]: [PkgPath] is empty exactly for exported fields;
    [Tag] maps the keys of the struct tag to their values. *)
Record StructField := {
  Name : string;
  PkgPath : string;
  Type_ : rtype;
  Tag : gmap string string
}.

(** [tag.Get(key)]: the value of [key] in the struct tag, the empty string
    when the tag has no such key. *)
Definition Tag_Get (tag : gmap string string) (key : string) : string :=
  default "" (tag !! key).

(** The value held by a struct field, or produced by [reflect.ValueOf].
    Fields of other types are never read or written by the package: only
    their type is kept. *)
Inductive Value :=
  | VString (s : string)
  | VInt (n : Z)
  | VFloat64 (f : float64)
  | VOther (t : rtype).

(** [v.Type()]. *)
Definition Value_Type (v : Value) : rtype :=
  match v with
  | VString _ => string_type
  | VInt _ => int_type
  | VFloat64 _ => float64_type
  | VOther t => t
  end.

(** The zero value of a type. *)
Definition Zero (t : rtype) : Value :=
  if decide (t = string_type) then VString ""
  else if decide (t = int_type) then VInt 0
  else if decide (t = float64_type) then VFloat64 (S754_zero false)
  else VOther t.

(** The struct behind the pointer given to [Load]: [t := e.Type()] is the
    list of its fields, [e.Field(i)] the value at index [i]. *)
Record Struct := { fields : list StructField; values : list Value }.

(** The struct value whose fields all hold their zero value ([Env{}]). *)
Definition zeroStruct (t : list StructField) : Struct :=
  {| fields := t; values := (fun f => Zero (Type_ f)) <$> t |}.

(** ** The process environment *)

(** [os.Getenv(key)]: the value of the variable, the empty string when it is
    not set (and for the empty name). *)
Definition os_Getenv (env : gmap string string) (key : string) : string :=
  if String.eqb key "" then "" else default "" (env !! key).

(** The names of a process environment contain no ['=']: the runtime splits
    each entry at its first ['='], and [os.Setenv] refuses such a name. *)
Definition envName (key : string) : bool :=
  negb (String.eqb key "") && negb (existsb (Ascii.eqb "=") (list_ascii_of_string key)).

Definition wfEnv (env : gmap string string) : Prop :=
  forall k, is_Some (env !! k) -> envName k = true.

(** ** Errors

    One constructor for each place where the package makes an error, with the
    values its message is formatted from. *)
Inductive error :=
  | ErrMissingTag                                  (* validateConstraints, empty tag list *)
  | ErrRequired (envKey name : string)             (* no value for a required variable *)
  | ErrOneOf (name envValue strOpts : string)      (* value not in the oneof list *)
  | ErrMinParse (name : string)                    (* the argument of min= is not a number *)
  | ErrMinValue (envKey name : string)             (* min=: the value is not a number *)
  | ErrMin (envKey name constraint : string)       (* value below the minimum *)
  | ErrMaxParse (name : string)                    (* the argument of max= is not a number *)
  | ErrMaxValue (envKey name : string)             (* max=: the value is not a number *)
  | ErrMax (envKey name constraint : string)       (* value above the maximum *)
  | ErrRegex (envKey name : string)                (* pattern does not compile or does not match *)
  | ErrURL (envKey name : string)                  (* format=URL not met *)
  | ErrMissingTagEnv                               (* parseValueFromEnv, empty tag list *)
  | ErrCastInt (envKey name : string) (t : rtype)  (* value is not an int *)
  | ErrParseFloat (envKey name : string) (t : rtype) (* value is not a float64 *)
  | ErrKind (envKey name : string) (t : rtype)     (* field of an unsupported kind *)
  | ErrNotValid                                    (* assignFieldValue: invalid field *)
  | ErrCantSet                                     (* assignFieldValue: field can't be set *)
  | ErrTypes                                       (* assignFieldValue: types don't match *)
  | ErrRegexCompile (pattern : string)             (* matchRegex: pattern does not compile *)
  | ErrRegexNoMatch.                               (* matchRegex: no match *)

#[global] Instance error_eq_dec : EqDecision error.
Proof. solve_decision. Defined.

(** [err.Error()]: the message of each error.  ([ErrRegexCompile] also prints
    the compiler's own message, which is left out here.) *)
Definition Error (e : error) : string :=
  match e with
  | ErrMissingTag =>
      "failed to find env var name, missing struct tag? e.g. `env:" +:+ String "034" "environment" +:+ String "034" "`"
  | ErrRequired k n =>
      "failed to find value for ENV[" +:+ String "034" k +:+ String "034" "], which is required in the AppEnv struct field '" +:+ n +:+ "'"
  | ErrOneOf n v opts =>
      "failed to match env var " +:+ n +:+ " with value '" +:+ v +:+ "', must be one of [" +:+ opts +:+ "]"
  | ErrMinParse n => "failed to parse min value for " +:+ n +:+ ", in struct tag min="
  | ErrMinValue k n =>
      "failed to parse float value in env var " +:+ k +:+ ", for struct tag constraint " +:+ n
  | ErrMin k n c =>
      "failed min value constraint for envvar[" +:+ k +:+ "] in struct field " +:+ n +:+ ", " +:+ c
  | ErrMaxParse n => "failed to parse max value for " +:+ n +:+ ", in struct tag max="
  | ErrMaxValue k n =>
      "failed to parse float value in envvar[" +:+ k +:+ "], for struct tag constraint " +:+ n
  | ErrMax k n c =>
      "failed max value constraint for envvar[" +:+ k +:+ "] in struct field " +:+ n +:+ ", " +:+ c
  | ErrRegex k n =>
      "failed regex match for env var " +:+ k +:+ ", with regex constraint in struct tag " +:+ n
  | ErrURL k n =>
      "failed URL format for env var " +:+ k +:+ ", with regex constraint in struct tag " +:+ n
  | ErrMissingTagEnv =>
      "failed to find env var name, missing struct tag env? e.g. `env:" +:+ String "034" "environment" +:+ String "034" "`"
  | ErrCastInt k n t =>
      "failed to cast env variable '" +:+ k +:+ "' value to int, struct field '" +:+ n +:+ ": type " +:+ rtype_String t +:+ "'"
  | ErrParseFloat k n t =>
      "failed to parse env variable '" +:+ k +:+ "' value to float64, struct field '" +:+ n +:+ ": type " +:+ rtype_String t +:+ "'"
  | ErrKind k n t =>
      "failed to parse env variable '" +:+ k +:+ "' into struct field '" +:+ n +:+ ": type " +:+ rtype_String t +:+ "'"
  | ErrNotValid => "failed to assign struct field value, field is not valid"
  | ErrCantSet => "failed to assign struct field value, field can't be set"
  | ErrTypes => "failed to assign struct field value, types don't match"
  | ErrRegexCompile p => "failed to compile env config regex '" +:+ p +:+ "': "
  | ErrRegexNoMatch => "env var value does not match given pattern"
  end.

(** A Go result [(v, err)]: the value when [err == nil], the error otherwise. *)
Inductive result (A : Type) :=
  | Ok (v : A)
  | Err (err : error).
Arguments Ok {A} v.
Arguments Err {A} err.

(** What one pass through the body of the [for] loop of [validateConstraints]
    does after the [switch]: go on with the next clause, or return. *)
Inductive flow :=
  | Next
  | Return (err : option error).

(** ** Package [simpleenv] *)

Section simpleenv.
Context `{lib : GoLib}.

(** The process environment, read through [os.Getenv]. *)
Variable env : gmap string string.

(** [matchRegex(pattern, str)]. *)
Definition matchRegex (pattern str : string) : result bool :=
  match regexp_Compile pattern with
  | None => Err (ErrRegexCompile pattern)
  | Some re =>
      if negb (Regexp_MatchString re str) then Err ErrRegexNoMatch else Ok true
  end.

(** [isValidURL(s)]. *)
Definition isValidURL (s : string) : bool :=
  match url_Parse s with
  | None => false
  | Some u =>
      if String.eqb (Scheme u) "" || String.eqb (Host u) "" then false
      else existsb (fun scheme => strings_EqualFold (Scheme u) scheme) ["http"; "https"]
  end.

(** [assignFieldValue(field, val)], where [field] is [e.Field(i)]: the field
    is valid when [i] is an index of the struct, and can be set when it is
    exported (the struct is reached through a pointer).  The struct after the
    call is returned with the error. *)
Definition assignFieldValue (e : Struct) (i : nat) (val : Value) : Struct * option error :=
  match fields e !! i with
  | None => (e, Some ErrNotValid)
  | Some fieldType =>
      if negb (String.eqb (PkgPath fieldType) "") then (e, Some ErrCantSet)
      else if negb (bool_decide (Type_ fieldType = Value_Type val)) then (e, Some ErrTypes)
      else ({| fields := fields e; values := <[i := val]> (values e) |}, None)
  end.

(** [parseValueFromEnv(fieldType)]. *)
Definition parseValueFromEnv (fieldType : StructField) : result Value :=
  let tag := Tag_Get (Tag fieldType) "env" in
  let tagOptions := strings_Split tag ";" in
  match tagOptions with
  | [] => Err ErrMissingTagEnv
  | envKey :: _ =>
      let envValue := os_Getenv env envKey in
      match rtype_Kind (Type_ fieldType) with
      | KString => Ok (VString envValue)
      | KInt =>
          match strconv_Atoi envValue with
          | None => Err (ErrCastInt envKey (Name fieldType) (Type_ fieldType))
          | Some intValue => Ok (VInt intValue)
          end
      | KFloat64 =>
          match strconv_ParseFloat envValue with
          | None => Err (ErrParseFloat envKey (Name fieldType) (Type_ fieldType))
          | Some floatValue => Ok (VFloat64 floatValue)
          end
      | KOther => Err (ErrKind envKey (Name fieldType) (Type_ fieldType))
      end
  end.

(** The [switch] in the loop of [validateConstraints], for one element
    [constraint] of [tagOptions]. *)
Definition checkConstraint (fieldType : StructField) (envKey envValue constraint : string) : flow :=
  if strings_HasPrefix constraint "oneof=" then
    let strOpts := strings_TrimPrefix constraint "oneof=" in
    let opts := strings_Split strOpts "," in
    if negb (slices_Contains opts envValue)
    then Return (Some (ErrOneOf (Name fieldType) envValue strOpts))
    else Next
  else if strings_HasPrefix constraint "min=" then
    let minstr := strings_TrimPrefix constraint "min=" in
    match strconv_ParseFloat minstr with
    | None => Return (Some (ErrMinParse (Name fieldType)))
    | Some min =>
        match strconv_ParseFloat envValue with
        | None => Return (Some (ErrMinValue envKey (Name fieldType)))
        | Some fieldValue =>
            if SFltb fieldValue min
            then Return (Some (ErrMin envKey (Name fieldType) constraint))
            else Next
        end
    end
  else if strings_HasPrefix constraint "max=" then
    let maxstr := strings_TrimPrefix constraint "max=" in
    match strconv_ParseFloat maxstr with
    | None => Return (Some (ErrMaxParse (Name fieldType)))
    | Some max =>
        match strconv_ParseFloat envValue with
        | None => Return (Some (ErrMaxValue envKey (Name fieldType)))
        | Some fieldValue =>
            if SFltb max fieldValue
            then Return (Some (ErrMax envKey (Name fieldType) constraint))
            else Next
        end
    end
  else if strings_HasPrefix constraint "regex=" then
    let patternstr := strings_TrimPrefix constraint "regex=" in
    match matchRegex patternstr envValue with
    | Err _ => Return (Some (ErrRegex envKey (Name fieldType)))
    | Ok _ => Next
    end
  else if strings_HasPrefix constraint "format=" then
    let format := strings_TrimPrefix constraint "format=" in
    if negb (String.eqb format "URL") then Return None
    else if negb (isValidURL envValue)
    then Return (Some (ErrURL envKey (Name fieldType)))
    else Next
  else Next.

(** The loop [for _, constraint := range tagOptions] of
    [validateConstraints], over the elements [rest] still to visit. *)
Fixpoint validateLoop (fieldType : StructField) (tagOptions : list string)
    (envKey envValue : string) (rest : list string) : option error :=
  match rest with
  | [] => None
  | constraint :: rest' =>
      if String.eqb envValue "" && negb (slices_Contains tagOptions "optional")
      then Some (ErrRequired envKey (Name fieldType))
      else
        match checkConstraint fieldType envKey envValue constraint with
        | Return err => err
        | Next => validateLoop fieldType tagOptions envKey envValue rest'
        end
  end.

(** [validateConstraints(fieldType)]; [None] is [nil]. *)
Definition validateConstraints (fieldType : StructField) : option error :=
  let tag := Tag_Get (Tag fieldType) "env" in
  let tagOptions := strings_Split tag ";" in
  match tagOptions with
  | [] => Some ErrMissingTag
  | envKey :: _ =>
      let envValue := os_Getenv env envKey in
      validateLoop fieldType tagOptions envKey envValue tagOptions
  end.

(** The loop [for i := range t.NumField()] of [Load], from index [i] on; [t]
    lists the fields from index [i]. *)
Fixpoint LoadLoop (t : list StructField) (i : nat) (e : Struct) : Struct * option error :=
  match t with
  | [] => (e, None)
  | fieldType :: t' =>
      match parseValueFromEnv fieldType with
      | Err err => (e, Some err)
      | Ok envValue =>
          match validateConstraints fieldType with
          | Some err => (e, Some err)
          | None =>
              match assignFieldValue e i envValue with
              | (e', Some err) => (e', Some err)
              | (e', None) => LoadLoop t' (S i) e'
              end
          end
      end
  end.

(** [Load(envConfig)], for [envConfig] a pointer to the struct [e]: the
    struct as [Load] leaves it, and the error returned ([None] is [nil]).
    The two progress lines that [Load] prints are not modelled. *)
Definition Load (e : Struct) : Struct * option error :=
  LoadLoop (fields e) 0 e.

End simpleenv.

(** ** A model of the standard library *)

(** *** [strconv.Atoi], for a 64-bit [int] *)

Definition isDigit (c : ascii) : bool :=
  let n := N_of_ascii c in ((48 <=? n) && (n <=? 57))%N.

Definition digitVal (c : ascii) : Z := Z.of_N (N_of_ascii c) - 48.

(** The value of a string of decimal digits read after [acc]; [None] when a
    byte is not a digit. *)
Fixpoint parseDigits (acc : Z) (s : string) : option Z :=
  match s with
  | EmptyString => Some acc
  | String c s' => if isDigit c then parseDigits (acc * 10 + digitVal c) s' else None
  end.

(** [Atoi] accepts an optional sign followed by one or more decimal digits,
    whose value fits an [int]; everything else is a syntax or range error. *)
Definition std_Atoi (s : string) : option Z :=
  let '(neg, digits) :=
    match s with
    | String "-" s' => (true, s')
    | String "+" s' => (false, s')
    | _ => (false, s)
    end in
  match digits with
  | EmptyString => None
  | _ =>
      n ← parseDigits 0 digits;
      let v := if neg then - n else n in
      if (- 2 ^ 63 <=? v) && (v <=? 2 ^ 63 - 1) then Some v else None
  end.

(** *** [strconv.ParseFloat(s, 64)] *)

(** [lower(c)] of package [strconv]: [c | ('x' - 'X')]. *)
Definition strconv_lower (c : ascii) : ascii :=
  ascii_of_N (N.lor (N_of_ascii c) 32).

Definition isHexLetter (c : ascii) : bool :=
  let n := N_of_ascii (strconv_lower c) in ((97 <=? n) && (n <=? 102))%N.

Definition hexLetterVal (c : ascii) : Z := Z.of_N (N_of_ascii (strconv_lower c)) - 97 + 10.

(** [commonPrefixLenIgnoreCase(s, prefix)], for a lower-case [prefix]. *)
Fixpoint commonPrefixLenIgnoreCase (s prefix : string) : nat :=
  match s, prefix with
  | String c s', String p prefix' =>
      if Ascii.eqb (lower c) p then S (commonPrefixLenIgnoreCase s' prefix') else O
  | _, _ => O
  end.

(** [special(s)]: the infinity or NaN that [s] starts with and the number
    of bytes it takes, [None] when [ok] is false. *)
Definition special (s : string) : option (float64 * nat) :=
  let inf (sign : bool) (nsign : nat) (s : string) :=
    let n := commonPrefixLenIgnoreCase s "infinity" in
    let n := if (3 <? n)%nat && (n <? 8)%nat then 3%nat else n in
    if (n =? 3)%nat || (n =? 8)%nat then Some (S754_infinity sign, (nsign + n)%nat) else None in
  match s with
  | String "+" s' => inf false 1%nat s'
  | String "-" s' => inf true 1%nat s'
  | String "i" _ | String "I" _ => inf false 0%nat s
  | String "n" _ | String "N" _ =>
      if (commonPrefixLenIgnoreCase s "nan" =? 3)%nat then Some (S754_nan, 3%nat) else None
  | _ => None
  end.

(** The state of the digit loop of [readFloat]: the digits read so far as a
    number ([mantissa], which Go cuts after 19 digits and the model keeps
    whole), their count after the leading zeros ([nd]), the position of the
    point ([dp]), and the flags. *)
Record digits := {
  mantissa : Z;
  nd : Z;
  dp : Z;
  sawdot : bool;
  sawdigits : bool;
  underscores : bool
}.

(** The digit loop of [readFloat]: the state at the first byte that is not
    part of the mantissa, and the bytes from there on. *)
Fixpoint readDigits (hex : bool) (d : digits) (s : string) : digits * string :=
  match s with
  | EmptyString => (d, s)
  | String c s' =>
      if Ascii.eqb c "_" then
        readDigits hex {| mantissa := mantissa d; nd := nd d; dp := dp d; sawdot := sawdot d;
                          sawdigits := sawdigits d; underscores := true |} s'
      else if Ascii.eqb c "." then
        if sawdot d then (d, s)
        else readDigits hex {| mantissa := mantissa d; nd := nd d; dp := nd d; sawdot := true;
                               sawdigits := sawdigits d; underscores := underscores d |} s'
      else if isDigit c then
        if Ascii.eqb c "0" && (nd d =? 0) then
          readDigits hex {| mantissa := mantissa d; nd := nd d; dp := dp d - 1; sawdot := sawdot d;
                            sawdigits := true; underscores := underscores d |} s'
        else
          readDigits hex {| mantissa := mantissa d * (if hex then 16 else 10) + digitVal c;
                            nd := nd d + 1; dp := dp d; sawdot := sawdot d;
                            sawdigits := true; underscores := underscores d |} s'
      else if hex && isHexLetter c then
        readDigits hex {| mantissa := mantissa d * 16 + hexLetterVal c;
                          nd := nd d + 1; dp := dp d; sawdot := sawdot d;
                          sawdigits := true; underscores := underscores d |} s'
      else (d, s)
  end.

(** The digits of the exponent: its value (no longer updated once it has
    reached 10000), whether an underscore was passed, and the bytes left. *)
Fixpoint readExponent (e : Z) (us : bool) (s : string) : Z * bool * string :=
  match s with
  | EmptyString => (e, us, s)
  | String c s' =>
      if isDigit c then readExponent (if e <? 10000 then e * 10 + digitVal c else e) us s'
      else if Ascii.eqb c "_" then readExponent e true s'
      else (e, us, s)
  end.

(** The loop of [underscoreOK]: [saw] is the last byte class seen, ["0"] for a
    digit or base prefix, ["_"] for an underscore, ["!"] for anything else and
    ["^"] at the beginning. *)
Fixpoint underscoreLoop (hex : bool) (saw : ascii) (s : string) : bool :=
  match s with
  | EmptyString => negb (Ascii.eqb saw "_")
  | String c s' =>
      if isDigit c || (hex && isHexLetter c) then underscoreLoop hex "0" s'
      else if Ascii.eqb c "_" then
        if negb (Ascii.eqb saw "0") then false else underscoreLoop hex "_" s'
      else if Ascii.eqb saw "_" then false
      else underscoreLoop hex "!" s'
  end.

(** [underscoreOK(s)]: underscores only between digits, or between a base
    prefix and a digit. *)
Definition underscoreOK (s : string) : bool :=
  let s := match s with
           | String "-" s' | String "+" s' => s'
           | _ => s
           end in
  match s with
  | String "0" (String b s') =>
      let b := strconv_lower b in
      if Ascii.eqb b "b" || Ascii.eqb b "o" || Ascii.eqb b "x"
      then underscoreLoop (Ascii.eqb b "x") "0" s'
      else underscoreLoop false "^" s
  | _ => underscoreLoop false "^" s
  end.

(** What [readFloat] returns for a well-formed number that takes the whole
    string: the sign, the digits as a number, the exponent of the base (10,
    or 2 for a hexadecimal number). *)
Record parsed := { neg : bool; mant : Z; exp : Z; hex : bool }.

(** [readFloat(s)], for the callers that need the whole of [s] to be the
    number ([ParseFloat] refuses a number followed by anything): [None] when
    [ok] is false or bytes are left over. *)
Definition readFloat (s : string) : option parsed :=
  match s with
  | EmptyString => None
  | _ =>
      let '(neg, s1) :=
        match s with
        | String "+" s' => (false, s')
        | String "-" s' => (true, s')
        | _ => (false, s)
        end in
      let '(hex, s2) :=
        match s1 with
        | String "0" (String x (String c s')) =>
            if Ascii.eqb (strconv_lower x) "x" then (true, String c s') else (false, s1)
        | _ => (false, s1)
        end in
      let '(d, s3) :=
        readDigits hex {| mantissa := 0; nd := 0; dp := 0; sawdot := false;
                          sawdigits := false; underscores := false |} s2 in
      if negb (sawdigits d) then None
      else
        let dp := if sawdot d then dp d else nd d in
        let '(dp, ndMant) := if hex then (dp * 4, nd d * 4) else (dp, nd d) in
        let finish (dp : Z) (us : bool) (rest : string) :=
          if negb (String.eqb rest "") then None
          else if us && negb (underscoreOK s) then None
          else Some {| neg := neg; mant := mantissa d;
                       exp := if mantissa d =? 0 then 0 else dp - ndMant; hex := hex |} in
        match s3 with
        | String c s4 =>
            if Ascii.eqb (strconv_lower c) (if hex then "p" else "e") then
              let '(esign, s5) :=
                match s4 with
                | String "+" s' => (1, s')
                | String "-" s' => (-1, s')
                | _ => (1, s4)
                end in
              match s5 with
              | String c5 _ =>
                  if isDigit c5 then
                    let '(e, us, rest) := readExponent 0 (underscores d) s5 in
                    finish (dp + e * esign) us rest
                  else None
              | EmptyString => None
              end
            else if hex then None
            else finish dp (underscores d) s3
        | EmptyString => if hex then None else finish dp (underscores d) s3
        end
  end.

(** The binary64 number nearest to [m * 10^e] or, for a hexadecimal number,
    [m * 2^e] (ties to even), with the sign [neg]: the value [ParseFloat]
    documents for a well-formed number. *)
Definition nearest64 (p : parsed) : float64 :=
  match mant p with
  | Zpos m =>
      if hex p then binary_round 53 1024 (neg p) m (exp p)
      else
        match exp p with
        | Zneg k =>
            let '(q, e, l) := SFdiv_core_binary 53 1024 (Zpos m) 0 (Zpos (10 ^ k)) 0 in
            binary_round_aux 53 1024 (neg p) q e l
        | _ => binary_round 53 1024 (neg p) (Z.to_pos (Zpos m * 10 ^ exp p)) 0
        end
  | _ => S754_zero (neg p)
  end.

(** [ParseFloat(s, 64)]: a special value, or a well-formed number that takes
    the whole string; a number too large for a [float64] is a range error. *)
Definition std_ParseFloat (s : string) : option float64 :=
  match special s with
  | Some (f, n) => if (n =? String.length s)%nat then Some f else None
  | None =>
      p ← readFloat s;
      match nearest64 p with
      | S754_infinity _ => None
      | f => Some f
      end
  end.

(** *** [url.Parse]

    The model follows [Parse], [parse] (not via a request), [getScheme],
    [parseAuthority], [parseHost] and the checks of [unescape], and keeps the
    scheme and the host of the result. *)

(** [strings.Cut(s, sep)] for a one-byte separator: the text before and
    after its first occurrence; [(s, "")] when it does not occur. *)
Fixpoint strings_Cut (s : string) (sep : ascii) : string * string :=
  match s with
  | EmptyString => ("", "")
  | String c s' =>
      if Ascii.eqb c sep then ("", s')
      else let '(before, after) := strings_Cut s' sep in (String c before, after)
  end.

(** [strings.LastIndex(s, sep)] for a one-byte separator, [None] for [-1]. *)
Fixpoint strings_LastIndex (s : string) (sep : ascii) : option nat :=
  match s with
  | EmptyString => None
  | String c s' =>
      match strings_LastIndex s' sep with
      | Some i => Some (S i)
      | None => if Ascii.eqb c sep then Some O else None
      end
  end.

Definition strings_ContainsByte (s : string) (c : ascii) : bool :=
  existsb (Ascii.eqb c) (list_ascii_of_string s).

Definition stringContainsCTLByte (s : string) : bool :=
  existsb (fun c => let n := N_of_ascii c in ((n <? 32) || (n =? 127))%N) (list_ascii_of_string s).

Definition isLetter (c : ascii) : bool :=
  let n := N_of_ascii c in (((97 <=? n) && (n <=? 122)) || ((65 <=? n) && (n <=? 90)))%N.

(** The loop of [getScheme] at index [i], with [s] the bytes from [i] on: the
    scheme and the rest, [None] for the error of a leading colon. *)
Fixpoint getSchemeLoop (rawURL : string) (i : nat) (s : string) : option (string * string) :=
  match s with
  | EmptyString => Some ("", rawURL)
  | String c s' =>
      if isLetter c then getSchemeLoop rawURL (S i) s'
      else if isDigit c || Ascii.eqb c "+" || Ascii.eqb c "-" || Ascii.eqb c "." then
        if (i =? 0)%nat then Some ("", rawURL) else getSchemeLoop rawURL (S i) s'
      else if Ascii.eqb c ":" then
        if (i =? 0)%nat then None else Some (String.substring 0 i rawURL, s')
      else Some ("", rawURL)
  end.

Definition getScheme (rawURL : string) : option (string * string) :=
  getSchemeLoop rawURL 0 rawURL.

Definition ishex (c : ascii) : bool := isDigit c || isHexLetter c.

Definition unhex (c : ascii) : Z := if isDigit c then digitVal c else hexLetterVal c.

(** The first pass of [unescape] in the modes that only ask for well-formed
    escapes (path, fragment, user and password): every ['%'] is followed by
    two hexadecimal digits. *)
Fixpoint validEscapes (s : string) : bool :=
  match s with
  | String "%" (String a (String b s')) => ishex a && ishex b && validEscapes s'
  | String "%" _ => false
  | String _ s' => validEscapes s'
  | EmptyString => true
  end.

(** [shouldEscape(c, encodeHost)]. *)
Definition shouldEscapeHost (c : ascii) : bool :=
  negb (isLetter c || isDigit c
        || strings_ContainsByte ("!$&'()*+,;=:[]<>" +:+ String "034" "") c
        || strings_ContainsByte "-_.~" c).

(** [unescape(s, mode)] for [mode] [encodeHost], or [encodeZone] when [zone]
    is set: the decoded text, [None] for an error. *)
Fixpoint unescapeHost (zone : bool) (s : string) : option string :=
  match s with
  | String "%" (String a (String b s')) =>
      if negb (ishex a && ishex b) then None
      else
        let is25 := Ascii.eqb a "2" && Ascii.eqb b "5" in
        let v := ascii_of_N (Z.to_N (unhex a * 16 + unhex b)) in
        if negb zone && (unhex a <? 8) && negb is25 then None
        else if zone && negb is25 && negb (Ascii.eqb v " ") && shouldEscapeHost v then None
        else String v <$> unescapeHost zone s'
  | String "%" _ => None
  | String c s' =>
      if (N_of_ascii c <? 128)%N && shouldEscapeHost c then None
      else String c <$> unescapeHost zone s'
  | EmptyString => Some ""
  end.

Definition validOptionalPort (port : string) : bool :=
  match port with
  | EmptyString => true
  | String ":" digits => forallb isDigit (list_ascii_of_string digits)
  | _ => false
  end.

(** [parseHost(host)]. *)
Definition parseHost (host : string) : option string :=
  if strings_HasPrefix host "[" then
    i ← strings_LastIndex host "]";
    if negb (validOptionalPort (string_drop (S i) host)) then None
    else
      match String.index 0 "%25" (String.substring 0 i host) with
      | Some zone =>
          host1 ← unescapeHost false (String.substring 0 zone host);
          host2 ← unescapeHost true (String.substring zone (i - zone) host);
          host3 ← unescapeHost false (string_drop i host);
          Some (host1 +:+ host2 +:+ host3)
      | None => unescapeHost false host
      end
  else
    match strings_LastIndex host ":" with
    | Some i =>
        if negb (validOptionalPort (string_drop i host)) then None
        else unescapeHost false host
    | None => unescapeHost false host
    end.

(** [validUserinfo(s)]. *)
Definition validUserinfo (s : string) : bool :=
  forallb (fun c => isLetter c || isDigit c || strings_ContainsByte "-._:~!$&'()*+,;=%@" c)
          (list_ascii_of_string s).

(** [parseAuthority(authority)], of which the host is kept.  User name and
    password are unescaped apart; an escape cannot reach over the colon
    between them, so their escapes are well formed when those of [userinfo]
    are. *)
Definition parseAuthority (authority : string) : option string :=
  match strings_LastIndex authority "@" with
  | None => parseHost authority
  | Some i =>
      host ← parseHost (string_drop (S i) authority);
      let userinfo := String.substring 0 i authority in
      if negb (validUserinfo userinfo) then None
      else if negb (validEscapes userinfo) then None
      else Some host
  end.

(** [parse(rawURL, false)].  The query is what follows the first ['?']; it
    is not checked. *)
Definition url_parse (rawURL : string) : option URL :=
  if stringContainsCTLByte rawURL then None
  else if String.eqb rawURL "*" then Some {| Scheme := ""; Host := "" |}
  else
    '(scheme, rest) ← getScheme rawURL;
    let scheme := strings_ToLower scheme in
    let rest := fst (strings_Cut rest "?") in
    let opaque := negb (strings_HasPrefix rest "/") && negb (String.eqb scheme "") in
    let colon := negb (strings_HasPrefix rest "/") && String.eqb scheme ""
                 && strings_ContainsByte (fst (strings_Cut rest "/")) ":" in
    if opaque then Some {| Scheme := scheme; Host := "" |}
    else if colon then None
    else if (negb (String.eqb scheme "") || negb (strings_HasPrefix rest "///"))
            && strings_HasPrefix rest "//" then
      let authority := string_drop 2 rest in
      let path := match String.index 0 "/" authority with
                  | Some i => string_drop i authority
                  | None => ""
                  end in
      let authority := fst (strings_Cut authority "/") in
      host ← parseAuthority authority;
      if validEscapes path then Some {| Scheme := scheme; Host := host |} else None
    else
      if validEscapes rest then Some {| Scheme := scheme; Host := "" |} else None.

(** [url.Parse(rawURL)]: the fragment after the first ['#'] is cut off and
    must have well-formed escapes. *)
Definition std_url_Parse (rawURL : string) : option URL :=
  let '(u, frag) := strings_Cut rawURL "#" in
  url ← url_parse u;
  if validEscapes frag then Some url else None.

(** *** Package [regexp]

    A fragment of the syntax that [regexp.Compile] accepts, matched byte by
    byte (so for ASCII patterns and text): literal bytes, [.], classes
    [[a-z0-9_]] and [[^...]], the escapes [\d \D \s \S \w \W \A \z], the
    control escapes and escaped punctuation, groups [(...)] and [(?:...)],
    alternation, the anchors [^] and [$], and one of [* + ?] after an atom,
    lazy or not.  A pattern outside the fragment (counted repetition, flags,
    named groups, word boundaries, POSIX and Unicode classes, octal and
    hexadecimal escapes) is not modelled: [std_regexp_Compile] has no regexp
    for it. *)
Inductive regex :=
  | REmpty
  | RByte (c : ascii)
  | RClass (negated : bool) (ranges : list (ascii * ascii))
  | RCat (r1 r2 : regex)
  | RAlt (r1 r2 : regex)
  | RStar (r : regex)
  | RBeginText
  | REndText.

Definition perl_d : list (ascii * ascii) := [("0", "9")]%char.
Definition perl_s : list (ascii * ascii) := [("009", "010"); ("012", "013"); (" ", " ")]%char.
Definition perl_w : list (ascii * ascii) := [("0", "9"); ("A", "Z"); ("_", "_"); ("a", "z")]%char.

(** Whether the byte [c] lies in one of the [ranges]. *)
Definition inRanges (ranges : list (ascii * ascii)) (c : ascii) : bool :=
  existsb (fun '(lo, hi) => (N_of_ascii lo <=? N_of_ascii c)%N && (N_of_ascii c <=? N_of_ascii hi)%N) ranges.

(** [\d], [\D], [\s], [\S], [\w], [\W] as a class: whether it is negated, and
    its ranges. *)
Definition perlClass (c : ascii) : option (bool * list (ascii * ascii)) :=
  if Ascii.eqb c "d" then Some (false, perl_d) else
  if Ascii.eqb c "D" then Some (true, perl_d) else
  if Ascii.eqb c "s" then Some (false, perl_s) else
  if Ascii.eqb c "S" then Some (true, perl_s) else
  if Ascii.eqb c "w" then Some (false, perl_w) else
  if Ascii.eqb c "W" then Some (true, perl_w) else None.

(** The byte that [\c] stands for, for a control escape or escaped
    punctuation. *)
Definition escapedByte (c : ascii) : option ascii :=
  if Ascii.eqb c "a" then Some "007"%char else
  if Ascii.eqb c "f" then Some "012"%char else
  if Ascii.eqb c "n" then Some "010"%char else
  if Ascii.eqb c "r" then Some "013"%char else
  if Ascii.eqb c "t" then Some "009"%char else
  if Ascii.eqb c "v" then Some "011"%char else
  if (N_of_ascii c <? 128)%N && negb (isLetter c || isDigit c) then Some c else None.

(** One byte of a class, plain or escaped, and the pattern after it. *)
Definition parseClassChar (s : string) : option (ascii * string) :=
  match s with
  | String "\" (String c s') => b ← escapedByte c; Some (b, s')
  | String "\" EmptyString => None
  | String c s' => Some (c, s')
  | EmptyString => None
  end.

(** The bytes in the complement of the ranges, as ranges of one byte. *)
Definition complement (ranges : list (ascii * ascii)) : list (ascii * ascii) :=
  (fun c => (c, c)) <$> filter (fun c => inRanges ranges c = false)
                               ((fun n => ascii_of_nat n) <$> seq 0 256).

(** The items of a class up to its closing bracket; [first] is set for the
    first item, where a closing bracket is an ordinary byte. *)
Fixpoint parseClassItems (fuel : nat) (first : bool) (acc : list (ascii * ascii)) (s : string)
    : option (list (ascii * ascii) * string) :=
  match fuel with
  | O => None
  | S fuel =>
      match s with
      | String "]" s' => if first then parseClassItems fuel false (acc ++ [("]", "]")%char]) s'
                         else Some (acc, s')
      | String "[" (String ":" _) => None
      | String "\" (String c s') =>
          match perlClass c with
          | Some (negated, ranges) =>
              parseClassItems fuel false (acc ++ (if negated then complement ranges else ranges)) s'
          | None =>
              if Ascii.eqb c "p" || Ascii.eqb c "P" then None
              else
                '(lo, s1) ← parseClassChar s;
                match s1 with
                | String "-" (String c2 s2) =>
                    if Ascii.eqb c2 "]" then parseClassItems fuel false (acc ++ [(lo, lo)]) s1
                    else
                      '(hi, s3) ← parseClassChar (String c2 s2);
                      if (N_of_ascii hi <? N_of_ascii lo)%N then None
                      else parseClassItems fuel false (acc ++ [(lo, hi)]) s3
                | _ => parseClassItems fuel false (acc ++ [(lo, lo)]) s1
                end
          end
      | _ =>
          '(lo, s1) ← parseClassChar s;
          match s1 with
          | String "-" (String c2 s2) =>
              if Ascii.eqb c2 "]" then parseClassItems fuel false (acc ++ [(lo, lo)]) s1
              else
                '(hi, s3) ← parseClassChar (String c2 s2);
                if (N_of_ascii hi <? N_of_ascii lo)%N then None
                else parseClassItems fuel false (acc ++ [(lo, hi)]) s3
          | _ => parseClassItems fuel false (acc ++ [(lo, lo)]) s1
          end
      end
  end.

(** A class, after its opening bracket. *)
Definition parseClass (s : string) : option (regex * string) :=
  let '(negated, s) := match s with
                       | String "^" s' => (true, s')
                       | _ => (false, s)
                       end in
  '(ranges, s') ← parseClassItems (S (String.length s)) true [] s;
  Some (RClass negated ranges, s').

(** The repetition operator after an atom, if any.  A second operator right
    after it is an error in Go too (invalid nested repetition operator). *)
Definition parseRepeat (r : regex) (s : string) : option (regex * string) :=
  let isOp (c : ascii) := Ascii.eqb c "*" || Ascii.eqb c "+" || Ascii.eqb c "?" || Ascii.eqb c "{" in
  match s with
  | String c s1 =>
      if Ascii.eqb c "{" then None
      else if isOp c then
        let r' := if Ascii.eqb c "*" then RStar r
                  else if Ascii.eqb c "+" then RCat r (RStar r)
                  else RAlt r REmpty in
        let s2 := match s1 with
                  | String "?" s' => s'
                  | _ => s1
                  end in
        match s2 with
        | String c2 _ => if isOp c2 then None else Some (r', s2)
        | EmptyString => Some (r', s2)
        end
      else Some (r, s)
  | EmptyString => Some (r, s)
  end.

(** The parser: an alternation of concatenations of repeated atoms, up to a
    closing parenthesis or the end of the pattern. *)
Fixpoint parseAlt (fuel : nat) (s : string) : option (regex * string) :=
  match fuel with
  | O => None
  | S fuel =>
      '(r1, s1) ← parseCat fuel s;
      match s1 with
      | String "|" s2 => '(r2, s3) ← parseAlt fuel s2; Some (RAlt r1 r2, s3)
      | _ => Some (r1, s1)
      end
  end
with parseCat (fuel : nat) (s : string) : option (regex * string) :=
  match fuel with
  | O => None
  | S fuel =>
      match s with
      | EmptyString | String "|" _ | String ")" _ => Some (REmpty, s)
      | _ =>
          '(a, s1) ← parseAtom fuel s;
          '(a, s2) ← parseRepeat a s1;
          '(b, s3) ← parseCat fuel s2;
          Some (RCat a b, s3)
      end
  end
with parseAtom (fuel : nat) (s : string) : option (regex * string) :=
  match fuel with
  | O => None
  | S fuel =>
      match s with
      | String "(" s1 =>
          inner ← match s1 with
                  | String "?" (String ":" s') => Some s'
                  | String "?" _ => None
                  | _ => Some s1
                  end;
          '(r, s2) ← parseAlt fuel inner;
          match s2 with
          | String ")" s3 => Some (r, s3)
          | _ => None
          end
      | String "[" s1 => parseClass s1
      | String "." s1 => Some (RClass true [("010", "010")%char], s1)
      | String "^" s1 => Some (RBeginText, s1)
      | String "$" s1 => Some (REndText, s1)
      | String "\" (String c s1) =>
          match perlClass c with
          | Some (negated, ranges) => Some (RClass negated ranges, s1)
          | None =>
              if Ascii.eqb c "A" then Some (RBeginText, s1)
              else if Ascii.eqb c "z" then Some (REndText, s1)
              else b ← escapedByte c; Some (RByte b, s1)
          end
      | String c s1 =>
          if strings_ContainsByte "*+?{\" c then None else Some (RByte c, s1)
      | EmptyString => None
      end
  end.

(** [regexp.Compile(pattern)] on the fragment. *)
Definition std_regexp_Compile (pattern : string) : option regex :=
  '(r, rest) ← parseAlt (2 * String.length pattern + 2) pattern;
  if String.eqb rest "" then Some r else None.

(** Backtracking match of [r] at the head of [s]; [bot] says that [s] is the
    whole text (we are at its beginning), and [k] continues the match with
    what is left.  An iteration of a star must consume a byte. *)
Fixpoint matchAt (r : regex) (bot : bool) (s : list ascii) (k : bool -> list ascii -> bool) : bool :=
  match r with
  | REmpty => k bot s
  | RByte c =>
      match s with
      | x :: s' => Ascii.eqb x c && k false s'
      | [] => false
      end
  | RClass negated ranges =>
      match s with
      | x :: s' => xorb negated (inRanges ranges x) && k false s'
      | [] => false
      end
  | RCat r1 r2 => matchAt r1 bot s (fun bot' s' => matchAt r2 bot' s' k)
  | RAlt r1 r2 => matchAt r1 bot s k || matchAt r2 bot s k
  | RStar r1 =>
      (fix iterate (n : nat) (bot : bool) (s : list ascii) : bool :=
         k bot s ||
         match n with
         | O => false
         | S n' => matchAt r1 bot s (fun bot' s' => (length s' <? length s)%nat && iterate n' bot' s')
         end) (length s) bot s
  | RBeginText => bot && k bot s
  | REndText => match s with
                | [] => k bot s
                | _ => false
                end
  end.

(** A match of [r] somewhere in the text, of which [s] is left. *)
Fixpoint searchFrom (r : regex) (bot : bool) (s : list ascii) : bool :=
  matchAt r bot s (fun _ _ => true) ||
  match s with
  | [] => false
  | _ :: s' => searchFrom r false s'
  end.

(** [re.MatchString(s)]. *)
Definition std_MatchString (re : regex) (s : string) : bool :=
  searchFrom re true (list_ascii_of_string s).

(** The model of the standard library. *)
#[global] Instance gostd : GoLib := {|
  strconv_Atoi := std_Atoi;
  strconv_ParseFloat := std_ParseFloat;
  Regexp := regex;
  regexp_Compile := std_regexp_Compile;
  Regexp_MatchString := std_MatchString;
  url_Parse := std_url_Parse
|}.

(** ** Vocabulary of the properties *)

(** The clauses of a field's annotation: [tagOptions] as both
    [parseValueFromEnv] and [validateConstraints] compute it. *)
Definition tagOptions (fieldType : StructField) : list string :=
  strings_Split (Tag_Get (Tag fieldType) "env") ";".

(** The first clause, the name of the environment variable. *)
Definition envKey (fieldType : StructField) : string := hd "" (tagOptions fieldType).

(** Whether the annotation has the clause [optional]. *)
Definition isOptional (fieldType : StructField) : bool :=
  slices_Contains (tagOptions fieldType) "optional".

(** An exported field [name t `env:"tag"`]. *)
Definition field (name : string) (t : rtype) (tag : string) : StructField :=
  {| Name := name; PkgPath := ""; Type_ := t; Tag := {["env" := tag]} |}.

(** An exported field [name t] without a struct tag. *)
Definition untagged (name : string) (t : rtype) : StructField :=
  {| Name := name; PkgPath := ""; Type_ := t; Tag := ∅ |}.

(** Two fields of [Env]. *)
Definition Version : StructField := field "Version" float64_type "VERSION;optional".
Definition Concurrency : StructField := field "Concurrency" int_type "CONCURRENCY;min=1".

(** The struct type [Env] of the example program. *)
Definition Env : list StructField :=
  [ field "Environment" string_type "ENVIRONMENT;oneof=development,test,staging,production";
    field "EncryptionKey" string_type "ENCRYPTION_KEY";
    field "APITokenSystems" string_type "FETCH_SYSTEM_TOKEN";
    field "APITokenIntegrations" string_type "POST_SYSTEM_TOKEN";
    field "PubsubHostURL" string_type
          "PUBSUB_EMULATOR_HOST;regex='(http|https)://(localhost|127.0.0.1):[0-9]+'";
    field "PubsubProjectID" string_type "PUBSUB_PROJECT_ID";
    Version;
    Concurrency ].

(** An environment in which every variable of [Env] but [VERSION] is set to
    a value that its constraints accept. *)
Definition exampleEnv : gmap string string :=
  <["ENVIRONMENT" := "staging"]> (
  <["ENCRYPTION_KEY" := "k3y"]> (
  <["FETCH_SYSTEM_TOKEN" := "t1"]> (
  <["POST_SYSTEM_TOKEN" := "t2"]> (
  <["PUBSUB_EMULATOR_HOST" := "'http://localhost:8085'"]> (
  <["PUBSUB_PROJECT_ID" := "demo"]> (
  <["CONCURRENCY" := "3"]> ∅)))))).

(** The field of the example in the comment of [Load] that is both optional
    and bounded. *)
Definition optionalConcurrency : StructField :=
  field "Concurrency" int_type "CONCURRENCY;optional;min=1".

(** The [float64] 5. *)
Definition five : float64 := S754_finite false 5629499534213120 (-50).

(** Whether an error returned by the package is the one for a missing
    annotation, [ErrMissingTag] or [ErrMissingTagEnv]. *)
Definition isMissingTag (err : option error) : bool :=
  match err with
  | Some ErrMissingTag | Some ErrMissingTagEnv => true
  | _ => false
  end.

(** What happens to field [f] at index [i] of [e] when [Load] gets to it and
    fails there with [err]: one of the three calls of the loop body returns
    it, in their order. *)
Definition failsAt `{lib : GoLib} (env : gmap string string) (e : Struct) (i : nat)
    (f : StructField) (err : error) : Prop :=
  parseValueFromEnv env f = Err err
  ∨ (∃ v, parseValueFromEnv env f = Ok v ∧ validateConstraints env f = Some err)
  ∨ (∃ v, parseValueFromEnv env f = Ok v ∧ validateConstraints env f = None
          ∧ snd (assignFieldValue e i v) = Some err).

(** Field [f] at index [i] is bound in [e']: coercion, validation and
    assignment succeeded and [e'] holds the coerced value. *)
Definition boundAt `{lib : GoLib} (env : gmap string string) (e' : Struct) (i : nat)
    (f : StructField) : Prop :=
  ∃ v, parseValueFromEnv env f = Ok v ∧ validateConstraints env f = None
       ∧ values e' !! i = Some v.

(** ** The example program *)

(** [NewEnv()] of the example program, run in the environment [env]: the
    struct that [Load] filled from [Env{}], or the error with which
    [log.Fatal] ends the process. *)
Definition NewEnv `{lib : GoLib} (env : gmap string string) : result Struct :=
  match Load env (zeroStruct Env) with
  | (e, None) => Ok e
  | (_, Some err) => Err err
  end.

(** The environment of the example with [VERSION] set as well, and the struct
    that [Load] makes of [Env{}] in it. *)
Definition fullEnv : gmap string string := <["VERSION" := "1.5"]> exampleEnv.

Definition loadedEnv : Struct := fst (Load fullEnv (zeroStruct Env)).

(** ** Vocabulary of the further properties *)

(** Every field of the struct holds a value of its declared type, as the
    fields of a Go struct do. *)
Definition wellTyped (e : Struct) : Prop :=
  Forall2 (fun f v => Value_Type v = Type_ f) (fields e) (values e).

(** The fields that [Load] can set: exported, and of the type [string], [int]
    or [float64] itself. *)
Definition settable (f : StructField) : Prop :=
  PkgPath f = ""
  ∧ (Type_ f = string_type ∨ Type_ f = int_type ∨ Type_ f = float64_type).

(** The clauses that the [switch] of [validateConstraints] has a case for. *)
Definition recognized (constraint : string) : bool :=
  strings_HasPrefix constraint "oneof="
  || strings_HasPrefix constraint "min="
  || strings_HasPrefix constraint "max="
  || strings_HasPrefix constraint "regex="
  || strings_HasPrefix constraint "format=".

(** The errors that [matchRegex] and [assignFieldValue] keep to themselves
    when they are called from [Load]. *)
Definition isInnerError (err : option error) : bool :=
  match err with
  | Some ErrNotValid | Some (ErrRegexCompile _) | Some ErrRegexNoMatch => true
  | _ => false
  end.

(** * Properties *)

(** ** Splitting *)

Lemma split_from_cons (sep : string) (skip : nat) (cur s : string) :
  ∃ first rest, split_from sep skip cur s = first :: rest.
Proof.
  revert skip cur. induction s as [|c s IH]; intros skip cur; simpl.
  - eauto.
  - destruct skip as [|k]; [|apply IH].
    match goal with |- context [if ?b then _ else _] => destruct b end;
      [eauto | apply IH].
Qed.

(** [strings.Split] with the separator [";"] never returns an empty slice:
    the guard [len(tagOptions) < 1] of the package is never taken. *)
Lemma tagOptions_cons (fieldType : StructField) :
  ∃ key rest, tagOptions fieldType = key :: rest.
Proof. unfold tagOptions, strings_Split. simpl. apply split_from_cons. Qed.

Lemma tagOptions_envKey (fieldType : StructField) :
  ∃ rest, tagOptions fieldType = envKey fieldType :: rest.
Proof.
  unfold envKey. destruct (tagOptions_cons fieldType) as (key & rest & ->).
  simpl. eauto.
Qed.

(** ** The loop of [Load] *)

Section LoadLoop.
Context `{lib : GoLib}.
Variable env : gmap string string.

Lemma assignFieldValue_fields (e e' : Struct) (i : nat) (v : Value) (r : option error) :
  assignFieldValue e i v = (e', r) → fields e' = fields e.
Proof.
  unfold assignFieldValue. intros H.
  repeat (case_match; simplify_eq); done.
Qed.

Lemma assignFieldValue_err (e e' : Struct) (i : nat) (v : Value) (err : error) :
  assignFieldValue e i v = (e', Some err) → e' = e.
Proof.
  unfold assignFieldValue. intros H.
  repeat (case_match; simplify_eq); done.
Qed.

Lemma assignFieldValue_ok (e e' : Struct) (i : nat) (v : Value) :
  assignFieldValue e i v = (e', None) →
  (i < length (fields e))%nat ∧ values e' = <[i := v]> (values e).
Proof.
  unfold assignFieldValue. intros H.
  destruct (fields e !! i) as [f|] eqn:Hf; [|simplify_eq].
  apply lookup_lt_Some in Hf.
  repeat (case_match; simplify_eq); done.
Qed.

(** One pass of the loop over a field that is bound. *)
Lemma LoadLoop_step_ok (f : StructField) (t : list StructField) (i : nat) (e e1 : Struct) (v : Value) :
  parseValueFromEnv env f = Ok v →
  validateConstraints env f = None →
  assignFieldValue e i v = (e1, None) →
  LoadLoop env (f :: t) i e = LoadLoop env t (S i) e1.
Proof. intros Hp Hv Ha. simpl. by rewrite Hp, Hv, Ha. Qed.

(** The loop over [pre ++ post] is the loop over [pre] and, when that
    returns no error, the loop over [post] from where it stopped. *)
Lemma LoadLoop_app (pre post : list StructField) (i : nat) (e : Struct) :
  LoadLoop env (pre ++ post) i e =
  match LoadLoop env pre i e with
  | (e1, None) => LoadLoop env post (i + length pre) e1
  | r => r
  end.
Proof.
  revert i e. induction pre as [|f pre IH]; intros i e; simpl.
  - by rewrite Nat.add_0_r.
  - destruct (parseValueFromEnv env f); [|done].
    destruct (validateConstraints env f); [done|].
    destruct (assignFieldValue e i v) as [e1 [err|]]; [done|].
    rewrite IH. by replace (S i + length pre)%nat with (i + S (length pre))%nat by lia.
Qed.

(** What the loop does to the struct, whatever it returns: the struct type
    and the number of values stay, and so do the values before index [i]. *)
Lemma LoadLoop_frame (t : list StructField) (i : nat) (e e' : Struct) (r : option error) :
  LoadLoop env t i e = (e', r) →
  fields e' = fields e
  ∧ length (values e') = length (values e)
  ∧ ∀ j, (j < i)%nat → values e' !! j = values e !! j.
Proof.
  revert i e. induction t as [|f t IH]; intros i e; simpl.
  - intros [= -> <-]. done.
  - destruct (parseValueFromEnv env f); [|by intros [= -> <-]].
    destruct (validateConstraints env f); [by intros [= -> <-]|].
    destruct (assignFieldValue e i v) as [e1 [err|]] eqn:Ha.
    + intros [= <- <-]. apply assignFieldValue_err in Ha as ->. done.
    + intros H. apply IH in H as (Hf & Hl & Hv).
      pose proof (assignFieldValue_fields _ _ _ _ _ Ha) as Hf1.
      apply assignFieldValue_ok in Ha as [Hi Hv1].
      rewrite Hf, Hl, Hf1, Hv1, length_insert. split_and!; [done..|].
      intros j Hj. rewrite Hv by lia. rewrite Hv1.
      apply list_lookup_insert_ne. lia.
Qed.

(** When the loop fails, it fails at the first field that does not bind:
    the fields before it hold their coerced values, and the values from the
    failing field on are those the struct had. *)
Lemma LoadLoop_fails (t : list StructField) (i : nat) (e e' : Struct) (err : error) :
  length (values e) = length (fields e) →
  LoadLoop env t i e = (e', Some err) →
  ∃ k f,
    t !! k = Some f
    ∧ failsAt env e' (i + k) f err
    ∧ (∀ j fj, (j < k)%nat → t !! j = Some fj → boundAt env e' (i + j) fj)
    ∧ (∀ j, (i + k ≤ j)%nat → values e' !! j = values e !! j).
Proof.
  revert i e. induction t as [|f t IH]; intros i e Hlen; simpl; [done|].
  destruct (parseValueFromEnv env f) as [v|err0] eqn:Hp.
  2:{ intros [= <- <-]. exists 0%nat, f. split_and!; [done| |intros; lia|done].
      left. done. }
  destruct (validateConstraints env f) as [err0|] eqn:Hv.
  { intros [= <- <-]. exists 0%nat, f. split_and!; [done| |intros; lia|done].
    right. left. eauto. }
  destruct (assignFieldValue e i v) as [e1 [err0|]] eqn:Ha.
  { intros [= <- <-]. pose proof (assignFieldValue_err _ _ _ _ _ Ha) as ->.
    exists 0%nat, f. split_and!; [done| |intros; lia|done].
    right. right. exists v. rewrite Nat.add_0_r, Ha. done. }
  intros H.
  pose proof (assignFieldValue_fields _ _ _ _ _ Ha) as Hf1.
  pose proof (assignFieldValue_ok _ _ _ _ Ha) as [Hi Hv1].
  pose proof (LoadLoop_frame _ _ _ _ _ H) as (_ & _ & Hfr).
  apply IH in H as (k & fk & Hk & Hfail & Hbound & Hrest).
  2:{ rewrite Hf1, Hv1, length_insert. done. }
  exists (S k), fk. split_and!.
  - done.
  - by replace (i + S k)%nat with (S i + k)%nat by lia.
  - intros [|j] fj Hj Hfj; simpl in Hfj.
    + simplify_eq. exists v. split_and!; [done..|].
      rewrite Nat.add_0_r, Hfr by lia. rewrite Hv1.
      apply list_lookup_insert_eq. lia.
    + replace (i + S j)%nat with (S i + j)%nat by lia.
      apply Hbound; [lia|done].
  - intros j Hj. rewrite Hrest by lia. rewrite Hv1.
    apply list_lookup_insert_ne. lia.
Qed.

End LoadLoop.

(** ** Partial binding (C9) *)

(** C9. When [Load] fails on a fresh struct (every field at its zero value),
    it fails at the first field [k] for which coercion, validation or
    assignment returns an error, and returns that error: every field before
    [k] holds its coerced value, the failing field and every field after it
    is still at its zero value, and nothing is tried again. *)
Theorem Load_fails_at_first_error `{lib : GoLib} (env : gmap string string)
    (t : list StructField) (e' : Struct) (err : error) :
  Load env (zeroStruct t) = (e', Some err) →
  ∃ k f,
    t !! k = Some f
    ∧ failsAt env e' k f err
    ∧ (∀ j fj, (j < k)%nat → t !! j = Some fj → boundAt env e' j fj)
    ∧ (∀ j fj, (k ≤ j)%nat → t !! j = Some fj → values e' !! j = Some (Zero (Type_ fj))).
Proof.
  unfold Load. intros H.
  apply LoadLoop_fails in H as (k & f & Hk & Hfail & Hbound & Hrest).
  2:{ simpl. by rewrite length_fmap. }
  exists k, f. simpl in *. split_and!; [done..|].
  intros j fj Hj Hfj. rewrite Hrest by lia.
  by rewrite list_lookup_fmap, Hfj.
Qed.

(** The example program without [VERSION]: [Load] stops at the seventh
    field, with the six fields before it bound. *)
Lemma Load_fails_at_first_error_witness :
  ∃ k f,
    Env !! k = Some f
    ∧ failsAt exampleEnv (fst (Load exampleEnv (zeroStruct Env))) k f
        (ErrParseFloat "VERSION" "Version" float64_type)
    ∧ (∀ j fj, (j < k)%nat → Env !! j = Some fj →
               boundAt exampleEnv (fst (Load exampleEnv (zeroStruct Env))) j fj)
    ∧ (∀ j fj, (k ≤ j)%nat → Env !! j = Some fj →
               values (fst (Load exampleEnv (zeroStruct Env))) !! j = Some (Zero (Type_ fj))).
Proof.
  apply (Load_fails_at_first_error exampleEnv Env).
  vm_compute. reflexivity.
Defined.

(** ** Order of coercion and validation (C2, C3) *)

(** The two functions that read the annotation, in the vocabulary above. *)
Lemma validateConstraints_unfold `{lib : GoLib} (env : gmap string string) (f : StructField) :
  validateConstraints env f
  = validateLoop f (tagOptions f) (envKey f) (os_Getenv env (envKey f)) (tagOptions f).
Proof.
  unfold validateConstraints. fold (tagOptions f).
  destruct (tagOptions_envKey f) as [rest ->]. done.
Qed.

Lemma parseValueFromEnv_unfold `{lib : GoLib} (env : gmap string string) (f : StructField) :
  parseValueFromEnv env f
  = match rtype_Kind (Type_ f) with
    | KString => Ok (VString (os_Getenv env (envKey f)))
    | KInt =>
        match strconv_Atoi (os_Getenv env (envKey f)) with
        | None => Err (ErrCastInt (envKey f) (Name f) (Type_ f))
        | Some intValue => Ok (VInt intValue)
        end
    | KFloat64 =>
        match strconv_ParseFloat (os_Getenv env (envKey f)) with
        | None => Err (ErrParseFloat (envKey f) (Name f) (Type_ f))
        | Some floatValue => Ok (VFloat64 floatValue)
        end
    | KOther => Err (ErrKind (envKey f) (Name f) (Type_ f))
    end.
Proof.
  unfold parseValueFromEnv. fold (tagOptions f).
  destruct (tagOptions_envKey f) as [rest ->]. done.
Qed.

(** With a value, no pass of the loop returns the error of the missing
    required value. *)
Lemma validateLoop_present `{lib : GoLib} (f : StructField) (opts : list string)
    (key v : string) (rest : list string) (err : error) :
  v ≠ "" →
  validateLoop f opts key v rest = Some err →
  ∀ k n, err ≠ ErrRequired k n.
Proof.
  intros Hv. apply String.eqb_neq in Hv.
  induction rest as [|c rest IH]; cbn [validateLoop]; [done|].
  rewrite Hv. cbn [andb].
  destruct (checkConstraint f key v c) as [|r] eqn:Hc; [done|].
  intros -> k n ->. unfold checkConstraint in Hc.
  repeat case_match; simplify_eq.
Qed.

(** C2, as the code has it, for a value that is there.  When [Load] gets to
    a field whose variable has a value and the value does not coerce, it
    returns the coercion error, also when [validateConstraints] fails on the
    same value; the error of [validateConstraints] is returned only for a
    value that coerced, and is then the failure of a clause, never the error
    of the missing required value.  (A variable without a value is the
    matter of C1 and C3.) *)
Theorem coercion_precedes_validation `{lib : GoLib} (env : gmap string string)
    (e e1 : Struct) (pre post : list StructField) (f : StructField) :
  fields e = (pre ++ f :: post)%list →
  LoadLoop env pre 0 e = (e1, None) →
  os_Getenv env (envKey f) ≠ "" →
  (∀ err err', parseValueFromEnv env f = Err err →
               validateConstraints env f = Some err' →
               Load env e = (e1, Some err))
  ∧ (∀ err, parseValueFromEnv env f = Err err → Load env e = (e1, Some err))
  ∧ (∀ v err, parseValueFromEnv env f = Ok v → validateConstraints env f = Some err →
              Load env e = (e1, Some err))
  ∧ (∀ err, validateConstraints env f = Some err → ∀ k n, err ≠ ErrRequired k n).
Proof.
  intros Hf Hpre Hpresent. unfold Load. rewrite Hf, LoadLoop_app, Hpre. simpl.
  split_and!.
  - intros err err' -> _. done.
  - intros err ->. done.
  - intros v err -> ->. done.
  - intros err Hv. rewrite validateConstraints_unfold in Hv.
    by apply (validateLoop_present _ _ _ _ _ _ Hpresent Hv).
Qed.

(** [Load] on the field [Concurrency] of the example, set to a text that is
    not a number: the error is that of the coercion. *)
Lemma coercion_precedes_validation_witness :
  Load {["CONCURRENCY" := "abc"]} (zeroStruct [Concurrency])
  = (zeroStruct [Concurrency], Some (ErrCastInt "CONCURRENCY" "Concurrency" int_type)).
Proof.
  assert (os_Getenv {["CONCURRENCY" := "abc"]} (envKey Concurrency) ≠ "") as Hpresent
    by (vm_compute; discriminate).
  apply (proj1 (coercion_precedes_validation {["CONCURRENCY" := "abc"]}
                  (zeroStruct [Concurrency]) (zeroStruct [Concurrency]) [] [] Concurrency
                  eq_refl eq_refl Hpresent)
           (ErrCastInt "CONCURRENCY" "Concurrency" int_type)
           (ErrMinValue "CONCURRENCY" "Concurrency"));
    vm_compute; reflexivity.
Defined.

(** C2 as stated fails.  For [Concurrency int `env:"CONCURRENCY;min=1"`] and
    [CONCURRENCY=abc] the clause [min=1] fails on the raw value and so does
    the coercion to [int]; the error that [Load] returns is the coercion
    failure, not the constraint failure. *)
Lemma constraint_failure_not_reported_first :
  validateConstraints {["CONCURRENCY" := "abc"]} Concurrency
  = Some (ErrMinValue "CONCURRENCY" "Concurrency")
  ∧ parseValueFromEnv {["CONCURRENCY" := "abc"]} Concurrency
    = Err (ErrCastInt "CONCURRENCY" "Concurrency" int_type)
  ∧ snd (Load {["CONCURRENCY" := "abc"]} (zeroStruct [Concurrency]))
    = Some (ErrCastInt "CONCURRENCY" "Concurrency" int_type)
  ∧ ErrCastInt "CONCURRENCY" "Concurrency" int_type ≠ ErrMinValue "CONCURRENCY" "Concurrency".
Proof. split_and!; [vm_compute; reflexivity..|discriminate]. Qed.

(** The presence rule of [validateConstraints]: without a value and without
    [optional], the first pass through the loop returns, before any clause is
    looked at. *)
Lemma validateConstraints_required `{lib : GoLib} (env : gmap string string) (f : StructField) :
  isOptional f = false →
  os_Getenv env (envKey f) = "" →
  validateConstraints env f = Some (ErrRequired (envKey f) (Name f)).
Proof.
  intros Hopt Hval. rewrite validateConstraints_unfold, Hval.
  unfold isOptional in Hopt.
  destruct (tagOptions_envKey f) as [rest Heq].
  rewrite Heq at 2. simpl. by rewrite Hopt.
Qed.

(** C3, as the code has it.  For a field without [optional] whose variable
    has no value, [validateConstraints] returns the error of the missing
    required value, with the key and the field name, before it looks at any
    clause.  [Load] returns that error for a field of kind string; for a field
    of kind int or float64 the empty string is coerced first, which fails (as
    [Atoi] and [ParseFloat] do on the empty string), and [Load] returns the
    coercion error. *)
Theorem required_value_missing `{lib : GoLib} (env : gmap string string)
    (e e1 : Struct) (pre post : list StructField) (f : StructField) :
  strconv_Atoi "" = None →
  strconv_ParseFloat "" = None →
  fields e = (pre ++ f :: post)%list →
  LoadLoop env pre 0 e = (e1, None) →
  isOptional f = false →
  os_Getenv env (envKey f) = "" →
  validateConstraints env f = Some (ErrRequired (envKey f) (Name f))
  ∧ Load env e
    = (e1, Some match rtype_Kind (Type_ f) with
                | KString => ErrRequired (envKey f) (Name f)
                | KInt => ErrCastInt (envKey f) (Name f) (Type_ f)
                | KFloat64 => ErrParseFloat (envKey f) (Name f) (Type_ f)
                | KOther => ErrKind (envKey f) (Name f) (Type_ f)
                end).
Proof.
  intros HA HF Hf Hpre Hopt Hval.
  pose proof (validateConstraints_required env f Hopt Hval) as Hv.
  split; [done|].
  pose proof (parseValueFromEnv_unfold env f) as Hp. rewrite Hval in Hp.
  unfold Load. rewrite Hf, LoadLoop_app, Hpre. simpl. rewrite Hp, ?Hv.
  destruct (rtype_Kind (Type_ f)).
  - done.
  - by rewrite HA.
  - by rewrite HF.
  - done.
Qed.

(** A required text field of the example without its variable. *)
Lemma required_value_missing_witness :
  validateConstraints ∅ (field "EncryptionKey" string_type "ENCRYPTION_KEY")
  = Some (ErrRequired "ENCRYPTION_KEY" "EncryptionKey")
  ∧ Load ∅ (zeroStruct [field "EncryptionKey" string_type "ENCRYPTION_KEY"])
    = (zeroStruct [field "EncryptionKey" string_type "ENCRYPTION_KEY"],
       Some (ErrRequired "ENCRYPTION_KEY" "EncryptionKey")).
Proof.
  apply (required_value_missing ∅
           (zeroStruct [field "EncryptionKey" string_type "ENCRYPTION_KEY"])
           (zeroStruct [field "EncryptionKey" string_type "ENCRYPTION_KEY"])
           [] [] (field "EncryptionKey" string_type "ENCRYPTION_KEY"));
    vm_compute; reflexivity.
Defined.

(** C3 as stated fails.  [Concurrency int `env:"CONCURRENCY;min=1"`] has no
    [optional] clause; with [CONCURRENCY] not set, [Load] fails with the
    coercion error, not with the error of the missing required value. *)
Lemma required_int_reports_coercion :
  isOptional Concurrency = false
  ∧ os_Getenv ∅ (envKey Concurrency) = ""
  ∧ snd (Load ∅ (zeroStruct [Concurrency]))
    = Some (ErrCastInt "CONCURRENCY" "Concurrency" int_type)
  ∧ ErrCastInt "CONCURRENCY" "Concurrency" int_type ≠ ErrRequired "CONCURRENCY" "Concurrency".
Proof. split_and!; [vm_compute; reflexivity..|discriminate]. Qed.

(** ** Optional fields without a value (C1, C4) *)

(** C1, at the inputs where the code departs from it.  The example program's
    own [Version float64 `env:"VERSION;optional"`] with [VERSION] not set:
    [Load] does not succeed, it returns the coercion error of the empty
    string, alone or as the seventh field of [Env]; the same happens to the
    optional int field of the comment of [Load].  A text field that is only
    optional does bind, to the empty string. *)
Theorem optional_absent_number_fails :
  isOptional Version = true
  ∧ os_Getenv ∅ (envKey Version) = ""
  ∧ Load ∅ (zeroStruct [Version])
    = (zeroStruct [Version], Some (ErrParseFloat "VERSION" "Version" float64_type))
  ∧ snd (Load exampleEnv (zeroStruct Env))
    = Some (ErrParseFloat "VERSION" "Version" float64_type)
  ∧ Load ∅ (zeroStruct [optionalConcurrency])
    = (zeroStruct [optionalConcurrency], Some (ErrCastInt "CONCURRENCY" "Concurrency" int_type))
  ∧ Load ∅ (zeroStruct [field "Note" string_type "NOTE;optional"])
    = (zeroStruct [field "Note" string_type "NOTE;optional"], None).
Proof. split_and!; vm_compute; reflexivity. Qed.

(** C4, at the inputs where the code departs from it.  With [optional] and
    no value the loop of [validateConstraints] still looks at the other
    clauses, with the empty string as the value: [min=1] of the optional
    field in the comment of [Load] fails, and so do [oneof] and [format=URL]
    on optional text fields, whose binding fails with them. *)
Theorem optional_absent_clauses_evaluated :
  isOptional optionalConcurrency = true
  ∧ os_Getenv ∅ (envKey optionalConcurrency) = ""
  ∧ validateConstraints ∅ optionalConcurrency
    = Some (ErrMinValue "CONCURRENCY" "Concurrency")
  ∧ Load ∅ (zeroStruct [field "Mode" string_type "MODE;optional;oneof=a,b"])
    = (zeroStruct [field "Mode" string_type "MODE;optional;oneof=a,b"],
       Some (ErrOneOf "Mode" "" "a,b"))
  ∧ Load ∅ (zeroStruct [field "ApiURL" string_type "API_URL;optional;format=URL"])
    = (zeroStruct [field "ApiURL" string_type "API_URL;optional;format=URL"],
       Some (ErrURL "API_URL" "ApiURL")).
Proof. split_and!; vm_compute; reflexivity. Qed.

(** ** Missing annotation (C5) *)

Section MissingTag.
Context `{lib : GoLib}.
Variable env : gmap string string.

Lemma checkConstraint_not_missing (f : StructField) (key v c : string) (r : option error) :
  checkConstraint f key v c = Return r → isMissingTag r = false.
Proof.
  unfold checkConstraint. intros H.
  repeat (case_match; simplify_eq); done.
Qed.

Lemma validateLoop_not_missing (f : StructField) (opts : list string) (key v : string)
    (rest : list string) :
  isMissingTag (validateLoop f opts key v rest) = false.
Proof.
  induction rest as [|c rest IH]; simpl; [done|].
  case_match; [done|].
  destruct (checkConstraint f key v c) eqn:Hc; [done|].
  by eapply checkConstraint_not_missing.
Qed.

Lemma parseValueFromEnv_not_missing (f : StructField) (err : error) :
  parseValueFromEnv env f = Err err → isMissingTag (Some err) = false.
Proof.
  rewrite parseValueFromEnv_unfold. intros H.
  repeat (case_match; simplify_eq); done.
Qed.

Lemma LoadLoop_not_missing (t : list StructField) (i : nat) (e : Struct) :
  isMissingTag (snd (LoadLoop env t i e)) = false.
Proof.
  revert i e. induction t as [|f t IH]; intros i e; simpl; [done|].
  destruct (parseValueFromEnv env f) as [v|err] eqn:Hp.
  2:{ by eapply parseValueFromEnv_not_missing. }
  pose proof (validateLoop_not_missing f (tagOptions f) (envKey f)
                (os_Getenv env (envKey f)) (tagOptions f)) as Hv.
  rewrite <- validateConstraints_unfold in Hv.
  destruct (validateConstraints env f) as [err|]; [exact Hv|].
  destruct (assignFieldValue e i v) as [e1 [err|]] eqn:Ha; [|apply IH].
  unfold assignFieldValue in Ha.
  repeat (case_match; simplify_eq); done.
Qed.

End MissingTag.

(** C5, at the inputs where the code departs from it.  No annotation makes
    [Load] return the error for a missing annotation: [strings.Split] gives
    at least one clause, so both guards [len(tagOptions) < 1] are dead.  A
    field without a tag, or with an empty annotation, is looked up under the
    empty name and treated as a required variable without a value (an int
    field fails in the coercion of the empty string); with an empty key and
    [optional], a text field binds. *)
Theorem missing_annotation_never_reported :
  (∀ (lib : GoLib) (env : gmap string string) (e : Struct),
     isMissingTag (snd (Load env e)) = false)
  ∧ Load exampleEnv (zeroStruct [untagged "Name" string_type])
    = (zeroStruct [untagged "Name" string_type], Some (ErrRequired "" "Name"))
  ∧ Load exampleEnv (zeroStruct [field "Name" string_type ""])
    = (zeroStruct [field "Name" string_type ""], Some (ErrRequired "" "Name"))
  ∧ Load exampleEnv (zeroStruct [untagged "Count" int_type])
    = (zeroStruct [untagged "Count" int_type], Some (ErrCastInt "" "Count" int_type))
  ∧ Load exampleEnv (zeroStruct [field "Name" string_type ";optional"])
    = (zeroStruct [field "Name" string_type ";optional"], None).
Proof.
  split_and!; [|vm_compute; reflexivity..].
  intros lib env e. apply LoadLoop_not_missing.
Qed.

(** ** Formats (C6, C7) *)

(** C6, at the input where the code departs from it.  A [format=] clause
    with a literal other than [URL] makes [validateConstraints] return [nil]
    at once, so the clauses after it ([rest]) are not looked at: [zzz] passes
    [format=email;oneof=a,b] and is bound, though [oneof=a,b] rejects it when
    it stands before the format clause, or after a clause of an unknown
    kind. *)
Theorem unknown_format_skips_later_clauses :
  (∀ (lib : GoLib) (f : StructField) (opts : list string) (key v format : string)
     (rest : list string),
     validateLoop f opts key v (("format=" +:+ format) :: rest)
     = if String.eqb v "" && negb (slices_Contains opts "optional")
       then Some (ErrRequired key (Name f))
       else if negb (String.eqb format "URL") then None
       else if negb (isValidURL v) then Some (ErrURL key (Name f))
       else validateLoop f opts key v rest)
  ∧ Load {["MODE" := "zzz"]} (zeroStruct [field "Mode" string_type "MODE;format=email;oneof=a,b"])
  = ({| fields := [field "Mode" string_type "MODE;format=email;oneof=a,b"];
        values := [VString "zzz"] |}, None)
  ∧ Load {["MODE" := "zzz"]} (zeroStruct [field "Mode" string_type "MODE;oneof=a,b;format=email"])
    = (zeroStruct [field "Mode" string_type "MODE;oneof=a,b;format=email"],
       Some (ErrOneOf "Mode" "zzz" "a,b"))
  ∧ Load {["MODE" := "zzz"]} (zeroStruct [field "Mode" string_type "MODE;kind=email;oneof=a,b"])
    = (zeroStruct [field "Mode" string_type "MODE;kind=email;oneof=a,b"],
       Some (ErrOneOf "Mode" "zzz" "a,b")).
Proof.
  split_and!; [|vm_compute; reflexivity..].
  intros lib f opts key v format rest. cbn [validateLoop].
  destruct (String.eqb v "" && negb (slices_Contains opts "optional")); [done|].
  assert (strings_HasPrefix ("format=" +:+ format) "format=" = true) as Hp
    by by destruct format.
  assert (strings_TrimPrefix ("format=" +:+ format) "format=" = format) as Ht
    by (unfold strings_TrimPrefix; by rewrite Hp).
  unfold checkConstraint.
  change (strings_HasPrefix ("format=" +:+ format) "oneof=") with false.
  change (strings_HasPrefix ("format=" +:+ format) "min=") with false.
  change (strings_HasPrefix ("format=" +:+ format) "max=") with false.
  change (strings_HasPrefix ("format=" +:+ format) "regex=") with false.
  cbv beta iota zeta. rewrite Hp, Ht.
  destruct (String.eqb format "URL"); simpl; [|done].
  destruct (isValidURL v); done.
Qed.

(** C7.  The clause [format=URL] is met exactly by the values that
    [isValidURL] accepts, and fails with the format error otherwise;
    [isValidURL] accepts a value exactly when [url.Parse] succeeds on it with
    a non-empty host and a scheme that is [http] or [https] up to case.  So
    ["http://localhost:1234"] and ["https://example.com/path"] meet the
    clause, also with the scheme in upper case, and ["ftp://x"],
    ["not-a-url"] and the empty string fail it. *)
Theorem format_URL_clause :
  (∀ (lib : GoLib) (f : StructField) (key v : string),
     checkConstraint f key v "format=URL"
     = if isValidURL v then Next else Return (Some (ErrURL key (Name f))))
  ∧ (∀ (lib : GoLib) (v : string),
       isValidURL v = true ↔
       ∃ u, url_Parse v = Some u
            ∧ Host u ≠ ""
            ∧ (strings_EqualFold (Scheme u) "http" = true
               ∨ strings_EqualFold (Scheme u) "https" = true))
  ∧ @isValidURL gostd "http://localhost:1234" = true
  ∧ @isValidURL gostd "https://example.com/path" = true
  ∧ @isValidURL gostd "HTTPS://example.com/path" = true
  ∧ @isValidURL gostd "ftp://x" = false
  ∧ @isValidURL gostd "not-a-url" = false
  ∧ @isValidURL gostd "http:///path" = false
  ∧ @isValidURL gostd "" = false
  ∧ @checkConstraint gostd (field "ApiURL" string_type "API_URL;format=URL")
      "API_URL" "" "format=URL" = Return (Some (ErrURL "API_URL" "ApiURL"))
  ∧ Load {["API_URL" := "http://localhost:1234"]}
         (zeroStruct [field "ApiURL" string_type "API_URL;format=URL"])
    = ({| fields := [field "ApiURL" string_type "API_URL;format=URL"];
          values := [VString "http://localhost:1234"] |}, None)
  ∧ Load {["API_URL" := "ftp://x"]}
         (zeroStruct [field "ApiURL" string_type "API_URL;format=URL"])
    = (zeroStruct [field "ApiURL" string_type "API_URL;format=URL"],
       Some (ErrURL "API_URL" "ApiURL"))
  ∧ Load {["API_URL" := "not-a-url"]}
         (zeroStruct [field "ApiURL" string_type "API_URL;format=URL"])
    = (zeroStruct [field "ApiURL" string_type "API_URL;format=URL"],
       Some (ErrURL "API_URL" "ApiURL")).
Proof.
  split_and!; try (vm_compute; reflexivity).
  - intros lib f key v. unfold checkConstraint. simpl.
    destruct (isValidURL v); done.
  - intros lib v. unfold isValidURL. split.
    + destruct (url_Parse v) as [u|]; [|done].
      destruct (String.eqb_spec (Scheme u) ""); [done|].
      destruct (String.eqb_spec (Host u) ""); [done|]. simpl.
      intros H. exists u. split_and!; [done..|].
      rewrite orb_false_r in H. by apply orb_prop in H.
    + intros (u & -> & Hh & Hs).
      destruct (String.eqb_spec (Host u) ""); [done|].
      destruct (String.eqb_spec (Scheme u) "") as [Heq|].
      { rewrite Heq in Hs. by destruct Hs. }
      simpl. destruct Hs as [-> | ->]; [done|]. by rewrite orb_true_r.
Qed.

(** ** The clause [min=] (C8) *)

Lemma ParseFloat_5 : std_ParseFloat "5" = Some five.
Proof. vm_compute. reflexivity. Qed.

(** The clause [min=5] on a raw value, for a field of any name and type: the
    value is parsed as a [float64] and compared with 5. *)
Lemma checkConstraint_min5 (f : StructField) (key v : string) :
  checkConstraint f key v "min=5"
  = match std_ParseFloat v with
    | None => Return (Some (ErrMinValue key (Name f)))
    | Some x => if SFltb x five then Return (Some (ErrMin key (Name f) "min=5")) else Next
    end.
Proof.
  unfold checkConstraint.
  change (strings_HasPrefix "min=5" "oneof=") with false.
  change (strings_HasPrefix "min=5" "min=") with true.
  change (strings_TrimPrefix "min=5" "min=") with "5".
  cbv beta iota zeta.
  change (strconv_ParseFloat "5") with (std_ParseFloat "5"). rewrite ParseFloat_5.
  reflexivity.
Qed.

(** C8.  For a field annotated [CONCURRENCY;min=5], of any name and type,
    the clause [min=5] parses the raw value as a [float64] and compares it
    with 5, and [validateConstraints] returns what the clause finds for a
    value that is there: the values ["5"], ["5.0"] and ["10"] pass, ["4.999"]
    fails with the error of the minimum, and a value that does not parse as a
    [float64] fails with the error that the clause has for it. *)
Theorem min_clause_on_raw_value (env : gmap string string) (f : StructField) (v : string) :
  Tag_Get (Tag f) "env" = "CONCURRENCY;min=5" →
  os_Getenv env "CONCURRENCY" = v →
  checkConstraint f "CONCURRENCY" v "min=5"
  = match std_ParseFloat v with
    | None => Return (Some (ErrMinValue "CONCURRENCY" (Name f)))
    | Some x =>
        if SFltb x five then Return (Some (ErrMin "CONCURRENCY" (Name f) "min=5")) else Next
    end
  ∧ (v ≠ "" →
     validateConstraints env f
     = match checkConstraint f "CONCURRENCY" v "min=5" with
       | Return err => err
       | Next => None
       end)
  ∧ (v = "5" ∨ v = "5.0" ∨ v = "10" → validateConstraints env f = None)
  ∧ (v = "4.999" →
     validateConstraints env f = Some (ErrMin "CONCURRENCY" (Name f) "min=5"))
  ∧ (v ≠ "" → std_ParseFloat v = None →
     validateConstraints env f = Some (ErrMinValue "CONCURRENCY" (Name f))).
Proof.
  intros Htag Hv.
  assert (Hgen : v ≠ "" →
                 validateConstraints env f
                 = match checkConstraint f "CONCURRENCY" v "min=5" with
                   | Return err => err
                   | Next => None
                   end).
  { intros Hne. unfold validateConstraints. rewrite Htag.
    change (strings_Split "CONCURRENCY;min=5" ";") with ["CONCURRENCY"; "min=5"].
    cbv beta iota zeta. rewrite Hv.
    assert (String.eqb v "" = false) as Hnee by by apply String.eqb_neq.
    cbn [validateLoop]. rewrite Hnee. cbn [andb].
    change (checkConstraint f "CONCURRENCY" v "CONCURRENCY") with Next.
    cbv beta iota. by destruct (checkConstraint f "CONCURRENCY" v "min=5"). }
  split_and!; [apply checkConstraint_min5 | done | | |].
  - intros Hv5. rewrite Hgen, checkConstraint_min5.
    + destruct Hv5 as [-> | [-> | ->]]; vm_compute; reflexivity.
    + destruct Hv5 as [-> | [-> | ->]]; discriminate.
  - intros ->. rewrite Hgen, checkConstraint_min5 by discriminate.
    vm_compute. reflexivity.
  - intros Hne Hnone. by rewrite Hgen, checkConstraint_min5, Hnone.
Qed.

(** The field [Concurrency] with the bound 5, as an int and set to 5. *)
Lemma min_clause_on_raw_value_witness :
  validateConstraints {["CONCURRENCY" := "5"]}
    (field "Concurrency" int_type "CONCURRENCY;min=5") = None.
Proof.
  apply (min_clause_on_raw_value {["CONCURRENCY" := "5"]}
           (field "Concurrency" int_type "CONCURRENCY;min=5") "5");
    [vm_compute; reflexivity .. | left; reflexivity].
Defined.

(** ** The key as a clause (C10) *)

(** What [validateConstraints] returns when the [switch] returns at the key. *)
Lemma validateConstraints_key `{lib : GoLib} (env : gmap string string) (f : StructField) :
  os_Getenv env (envKey f) ≠ "" ∨ isOptional f = true →
  validateConstraints env f
  = match checkConstraint f (envKey f) (os_Getenv env (envKey f)) (envKey f) with
    | Return r => r
    | Next => validateLoop f (tagOptions f) (envKey f) (os_Getenv env (envKey f))
                (tl (tagOptions f))
    end.
Proof.
  intros Hpresent. rewrite validateConstraints_unfold.
  destruct (tagOptions_envKey f) as [rest Heq].
  assert (tl (tagOptions f) = rest) as -> by by rewrite Heq.
  rewrite Heq at 2. cbn [validateLoop].
  destruct Hpresent as [Hv | Ho].
  - apply String.eqb_neq in Hv. by rewrite Hv.
  - unfold isOptional in Ho. rewrite Ho. by rewrite andb_false_r.
Qed.

(** C10, as the code has it.  The loop of [validateConstraints] runs over
    all of [tagOptions], the key included, with the presence rule before the
    [switch] in every pass.  When a value is there or the field is optional,
    what the [switch] returns for the key is what [validateConstraints]
    returns: a key that starts with [oneof=], [min=], [max=], [regex=] or
    [format=] is then checked as a clause of that kind against the value
    looked up under it, and makes the binding fail when the check fails.
    When there is no value and the field is not optional, the error of the
    missing required value is returned and the key is not checked. *)
Theorem key_checked_as_clause :
  (∀ (lib : GoLib) (env : gmap string string) (f : StructField) (r : option error),
     os_Getenv env (envKey f) ≠ "" ∨ isOptional f = true →
     checkConstraint f (envKey f) (os_Getenv env (envKey f)) (envKey f) = Return r →
     validateConstraints env f = r)
  ∧ (∀ (lib : GoLib) (env : gmap string string) (f : StructField),
       os_Getenv env (envKey f) = "" → isOptional f = false →
       validateConstraints env f = Some (ErrRequired (envKey f) (Name f)))
  ∧ Load ∅ (zeroStruct [field "F" string_type "oneof=a,b;optional"])
    = (zeroStruct [field "F" string_type "oneof=a,b;optional"],
       Some (ErrOneOf "F" "" "a,b"))
  ∧ Load ∅ (zeroStruct [field "F" string_type "min=5;optional"])
    = (zeroStruct [field "F" string_type "min=5;optional"],
       Some (ErrMinValue "min=5" "F"))
  ∧ Load ∅ (zeroStruct [field "F" string_type "max=5;optional"])
    = (zeroStruct [field "F" string_type "max=5;optional"],
       Some (ErrMaxValue "max=5" "F"))
  ∧ Load ∅ (zeroStruct [field "F" string_type "regex=^x$;optional"])
    = (zeroStruct [field "F" string_type "regex=^x$;optional"],
       Some (ErrRegex "regex=^x$" "F"))
  ∧ Load ∅ (zeroStruct [field "F" string_type "format=URL;optional"])
    = (zeroStruct [field "F" string_type "format=URL;optional"],
       Some (ErrURL "format=URL" "F"))
  ∧ Load ∅ (zeroStruct [field "F" string_type "oneof=a,,b;optional"])
    = (zeroStruct [field "F" string_type "oneof=a,,b;optional"], None)
  ∧ Load ∅ (zeroStruct [field "F" string_type "min=5"])
    = (zeroStruct [field "F" string_type "min=5"], Some (ErrRequired "min=5" "F")).
Proof.
  split_and!; [| |vm_compute; reflexivity..].
  - intros lib env f r Hpresent Hkey.
    by rewrite validateConstraints_key, Hkey.
  - intros lib env f Hempty Hopt. by apply validateConstraints_required.
Qed.

(** The key [min=5] of an optional field, looked up in an empty environment. *)
Lemma key_checked_as_clause_witness :
  validateConstraints ∅ (field "F" string_type "min=5;optional")
  = Some (ErrMinValue "min=5" "F").
Proof.
  apply (proj1 key_checked_as_clause gostd ∅ (field "F" string_type "min=5;optional"));
    [right|]; vm_compute; reflexivity.
Defined.

(** C10 as stated fails.  The field [F string `env:"min=5"`] has a key that
    starts with [min=] and no [optional] clause.  Checked as a clause against
    the value looked up under it, the empty string, the key would fail as a
    value that is not a number; [validateConstraints] and [Load] return the
    error of the missing required value instead, without checking the key. *)
Lemma required_key_not_checked :
  strings_HasPrefix (envKey (field "F" string_type "min=5")) "min=" = true
  ∧ isOptional (field "F" string_type "min=5") = false
  ∧ os_Getenv ∅ (envKey (field "F" string_type "min=5")) = ""
  ∧ checkConstraint (field "F" string_type "min=5") "min=5" "" "min=5"
    = Return (Some (ErrMinValue "min=5" "F"))
  ∧ validateConstraints ∅ (field "F" string_type "min=5")
    = Some (ErrRequired "min=5" "F")
  ∧ Load ∅ (zeroStruct [field "F" string_type "min=5"])
    = (zeroStruct [field "F" string_type "min=5"], Some (ErrRequired "min=5" "F"))
  ∧ ErrRequired "min=5" "F" ≠ ErrMinValue "min=5" "F".
Proof. split_and!; [vm_compute; reflexivity..|discriminate]. Qed.

(** ** Keys in a process environment *)

(** A byte of a prefix of [key] is a byte of [key]. *)
Lemma prefix_ContainsByte (p key : string) (c : ascii) :
  String.prefix p key = true →
  strings_ContainsByte p c = true → strings_ContainsByte key c = true.
Proof.
  unfold strings_ContainsByte. revert key.
  induction p as [|a p IH]; intros key; simpl.
  { intros _ H. discriminate H. }
  destruct key as [|b key]; simpl; [intros H; discriminate H|].
  destruct (ascii_dec a b) as [->|]; [|intros H; discriminate H].
  intros Hp. simpl. destruct (Ascii.eqb c b); [done|]. simpl. by apply IH.
Qed.

(** In a process environment no variable has a name that the [switch] has a
    case for: such a name holds a ['=']. *)
Lemma os_Getenv_recognized (env : gmap string string) (key : string) :
  wfEnv env → recognized key = true → os_Getenv env key = "".
Proof.
  intros Hwf Hrec. unfold os_Getenv.
  destruct (String.eqb key ""); [done|].
  destruct (env !! key) as [v|] eqn:Hk; [|done].
  assert (envName key = true) as Hname by (apply Hwf; eauto).
  assert (strings_ContainsByte key "=" = true) as Hc.
  { unfold recognized, strings_HasPrefix in Hrec.
    repeat (apply orb_prop in Hrec as [Hrec | Hrec]);
      by eapply prefix_ContainsByte. }
  unfold envName in Hname. unfold strings_ContainsByte in Hc.
  rewrite Hc in Hname. by rewrite andb_false_r in Hname.
Qed.

Lemma wfEnv_exampleEnv : wfEnv exampleEnv.
Proof.
  intros k [v Hk]. unfold exampleEnv in Hk.
  repeat (rewrite lookup_insert in Hk; case_decide; [subst k; reflexivity|]).
  by rewrite lookup_empty in Hk.
Qed.

(** X1.  In a process environment a name has no ['=']: for a field whose key
    starts with [oneof=], [min=], [max=], [regex=] or [format=], the value
    looked up under the key is always empty.  Without [optional],
    [validateConstraints] returns the error of the missing required value;
    with [optional], it checks the key as a clause against the empty string
    and returns what the [switch] returns for it, going on with the other
    clauses when the key passes. *)
Theorem key_with_prefix_has_no_value `{lib : GoLib} (env : gmap string string)
    (f : StructField) :
  wfEnv env →
  recognized (envKey f) = true →
  os_Getenv env (envKey f) = ""
  ∧ (isOptional f = false →
     validateConstraints env f = Some (ErrRequired (envKey f) (Name f)))
  ∧ (isOptional f = true →
     validateConstraints env f
     = match checkConstraint f (envKey f) "" (envKey f) with
       | Return r => r
       | Next => validateLoop f (tagOptions f) (envKey f) "" (tl (tagOptions f))
       end).
Proof.
  intros Hwf Hrec.
  pose proof (os_Getenv_recognized env (envKey f) Hwf Hrec) as Hempty.
  split_and!; [done| |].
  - intros Hopt. by apply validateConstraints_required.
  - intros Hopt. rewrite validateConstraints_key by by right. by rewrite Hempty.
Qed.

(** The key [min=5] of an optional field in the environment of the example:
    it has no value, and the field fails in the check of its key. *)
Lemma key_with_prefix_has_no_value_witness :
  os_Getenv exampleEnv (envKey (field "F" string_type "min=5;optional")) = ""
  ∧ validateConstraints exampleEnv (field "F" string_type "min=5;optional")
    = Some (ErrMinValue "min=5" "F").
Proof.
  destruct (key_with_prefix_has_no_value exampleEnv
              (field "F" string_type "min=5;optional") wfEnv_exampleEnv eq_refl)
    as (Hempty & _ & Hopt).
  split; [exact Hempty|].
  rewrite (Hopt eq_refl). vm_compute. reflexivity.
Defined.

(** What [url.Parse] finds in a value that [format=URL] accepts. *)
Lemma format_URL_clause_witness :
  ∃ u, url_Parse "http://localhost:1234" = Some u
       ∧ Host u ≠ ""
       ∧ (strings_EqualFold (Scheme u) "http" = true
          ∨ strings_EqualFold (Scheme u) "https" = true).
Proof.
  apply (proj1 (proj1 (proj2 format_URL_clause) gostd "http://localhost:1234")).
  vm_compute. reflexivity.
Defined.

(** * Further properties *)

(** ** A successful [Load] *)

Section LoadSucceeds.
Context `{lib : GoLib}.
Variable env : gmap string string.

(** What a successful run of the loop says about each field it went over,
    and about the field of the struct at the same index. *)
Lemma LoadLoop_ok (t : list StructField) (i : nat) (e e' : Struct) :
  length (values e) = length (fields e) →
  LoadLoop env t i e = (e', None) →
  ∀ k f, t !! k = Some f →
    ∃ v fi, parseValueFromEnv env f = Ok v
            ∧ validateConstraints env f = None
            ∧ values e' !! (i + k)%nat = Some v
            ∧ fields e !! (i + k)%nat = Some fi
            ∧ PkgPath fi = ""
            ∧ Type_ fi = Value_Type v.
Proof.
  revert i e. induction t as [|f0 t IH]; intros i e Hlen; simpl; [done|].
  destruct (parseValueFromEnv env f0) as [v0|] eqn:Hp; [|done].
  destruct (validateConstraints env f0) eqn:Hv; [done|].
  destruct (assignFieldValue e i v0) as [e1 [err|]] eqn:Ha; [done|].
  intros H k f Hk.
  pose proof (assignFieldValue_fields _ _ _ _ _ Ha) as Hf1.
  pose proof (assignFieldValue_ok _ _ _ _ Ha) as [Hi Hv1].
  assert (length (values e1) = length (fields e1)) as Hlen1
    by by rewrite Hf1, Hv1, length_insert.
  destruct k as [|k]; simpl in Hk.
  - simplify_eq. rewrite Nat.add_0_r.
    pose proof (LoadLoop_frame env _ _ _ _ _ H) as (_ & _ & Hfr).
    unfold assignFieldValue in Ha.
    destruct (fields e !! i) as [fi|] eqn:Hfi; [|done].
    destruct (String.eqb_spec (PkgPath fi) ""); simpl in Ha; [|done].
    case_bool_decide; simpl in Ha; [|done].
    exists v0, fi. split_and!; try done.
    rewrite Hfr by lia. rewrite Hv1. apply list_lookup_insert_eq. lia.
  - destruct (IH (S i) e1 Hlen1 H k f Hk) as (v & fi & ? & ? & ? & ? & ? & ?).
    exists v, fi. replace (i + S k)%nat with (S i + k)%nat by lia.
    split_and!; try done. by rewrite <- Hf1.
Qed.

(** The errors of the loop depend on the struct type only, not on the values
    the struct holds. *)
Lemma LoadLoop_error_values (t : list StructField) (i : nat) (e1 e2 : Struct) :
  fields e1 = fields e2 →
  snd (LoadLoop env t i e1) = snd (LoadLoop env t i e2).
Proof.
  revert i e1 e2. induction t as [|f t IH]; intros i e1 e2 Hf; simpl; [done|].
  destruct (parseValueFromEnv env f) as [v|]; [|done].
  destruct (validateConstraints env f); [done|].
  unfold assignFieldValue. rewrite Hf.
  destruct (fields e2 !! i) as [fi|]; [|done].
  destruct (negb (String.eqb (PkgPath fi) "")); [done|].
  destruct (negb (bool_decide (Type_ fi = Value_Type v))); [done|].
  by apply IH.
Qed.

(** The loop succeeds again, and changes nothing, on a struct of the same
    type that already holds the values it assigns. *)
Lemma LoadLoop_again (t : list StructField) (i : nat) (e e' e2 : Struct) :
  LoadLoop env t i e = (e', None) →
  fields e2 = fields e →
  (∀ k f v, t !! k = Some f → parseValueFromEnv env f = Ok v →
            values e2 !! (i + k)%nat = Some v) →
  LoadLoop env t i e2 = (e2, None).
Proof.
  revert i e. induction t as [|f t IH]; intros i e; simpl; [done|].
  destruct (parseValueFromEnv env f) as [v|] eqn:Hp; [|done].
  destruct (validateConstraints env f); [done|].
  destruct (assignFieldValue e i v) as [e1 [err|]] eqn:Ha; [done|].
  intros H Hf Hvals.
  pose proof (assignFieldValue_fields _ _ _ _ _ Ha) as Hf1.
  assert (assignFieldValue e2 i v = (e2, None)) as ->.
  { specialize (Hvals 0%nat f v eq_refl Hp). rewrite Nat.add_0_r in Hvals.
    destruct e2 as [fields2 values2]. simpl in Hf, Hvals. subst fields2.
    unfold assignFieldValue in *. simpl.
    destruct (fields e !! i) as [fi|]; [|done].
    destruct (negb (String.eqb (PkgPath fi) "")); [done|].
    destruct (negb (bool_decide (Type_ fi = Value_Type v))); [done|].
    by rewrite list_insert_id. }
  apply (IH (S i) e1 H); [congruence|].
  intros k fk vk Hk Hpk. specialize (Hvals (S k) fk vk Hk Hpk).
  by replace (S i + k)%nat with (i + S k)%nat by lia.
Qed.

End LoadSucceeds.

Lemma wellTyped_length (e : Struct) :
  wellTyped e → length (values e) = length (fields e).
Proof. intros H. symmetry. by eapply Forall2_length. Qed.

Lemma wellTyped_zeroStruct (t : list StructField) : wellTyped (zeroStruct t).
Proof.
  unfold wellTyped, zeroStruct. simpl. apply Forall2_fmap_r, Forall_Forall2_diag.
  apply Forall_forall. intros f _. unfold Zero, compose.
  repeat case_decide; try reflexivity;
    match goal with H : Type_ f = _ |- _ => by rewrite H end.
Qed.

(** The value that coercion gives is a [string], an [int] or a [float64]. *)
Lemma parseValueFromEnv_type `{lib : GoLib} (env : gmap string string) (f : StructField) (v : Value) :
  parseValueFromEnv env f = Ok v →
  Value_Type v = string_type ∨ Value_Type v = int_type ∨ Value_Type v = float64_type.
Proof.
  rewrite parseValueFromEnv_unfold. intros H.
  repeat (case_match; simplify_eq); simpl; auto.
Qed.

(** A successful [Load], field by field. *)
Lemma Load_ok_lookup `{lib : GoLib} (env : gmap string string) (e e' : Struct) :
  wellTyped e →
  Load env e = (e', None) →
  fields e' = fields e
  ∧ length (values e') = length (fields e)
  ∧ ∀ k f, fields e !! k = Some f →
      ∃ v, parseValueFromEnv env f = Ok v
           ∧ validateConstraints env f = None
           ∧ values e' !! k = Some v
           ∧ settable f.
Proof.
  intros Hwt H. unfold Load in H.
  pose proof (wellTyped_length e Hwt) as Hlen.
  pose proof (LoadLoop_frame env _ _ _ _ _ H) as (Hf & Hl & _).
  split_and!; [done | congruence |].
  intros k f Hk.
  destruct (LoadLoop_ok env _ _ _ _ Hlen H k f Hk)
    as (v & fi & Hp & Hv & Hv' & Hfi & Hpkg & Hty).
  simpl in Hv', Hfi. simplify_eq. exists v. split_and!; [done..|].
  split; [done|]. rewrite Hty. by eapply parseValueFromEnv_type.
Qed.

(** X2.  When [Load] returns [nil], the struct has kept its type and every
    field holds the coercion of the value of its variable, which passed the
    field's constraints: whatever the struct held before is overwritten. *)
Theorem Load_binds_every_field `{lib : GoLib} (env : gmap string string) (e e' : Struct) :
  wellTyped e →
  Load env e = (e', None) →
  fields e' = fields e
  ∧ Forall2 (fun f v => parseValueFromEnv env f = Ok v ∧ validateConstraints env f = None)
            (fields e) (values e').
Proof.
  intros Hwt H.
  destruct (Load_ok_lookup env e e' Hwt H) as (Hf & Hl & Hok).
  split; [done|].
  apply Forall2_same_length_lookup. split; [done|].
  intros k f v Hk Hv.
  destruct (Hok k f Hk) as (v' & ? & ? & Hv' & _). by simplify_eq.
Qed.

Lemma Load_binds_every_field_witness :
  fields loadedEnv = fields (zeroStruct Env)
  ∧ Forall2 (fun f v => parseValueFromEnv fullEnv f = Ok v
                        ∧ validateConstraints fullEnv f = None)
            (fields (zeroStruct Env)) (values loadedEnv).
Proof.
  apply (Load_binds_every_field fullEnv (zeroStruct Env) loadedEnv).
  - apply wellTyped_zeroStruct.
  - vm_compute. reflexivity.
Defined.

(** X4.  A successful [Load] is idempotent: calling [Load] again on the
    struct it filled, in the same environment, succeeds and leaves the struct
    as it is. *)
Theorem Load_idempotent `{lib : GoLib} (env : gmap string string) (e e' : Struct) :
  wellTyped e →
  Load env e = (e', None) →
  Load env e' = (e', None).
Proof.
  intros Hwt H.
  destruct (Load_ok_lookup env e e' Hwt H) as (Hf & _ & Hok).
  unfold Load in *. rewrite Hf.
  apply (LoadLoop_again env _ _ e e'); [done..|].
  intros k f v Hk Hp. simpl.
  destruct (Hok k f Hk) as (v' & Hp' & _ & Hv' & _).
  congruence.
Qed.

Lemma Load_idempotent_witness : Load fullEnv loadedEnv = (loadedEnv, None).
Proof.
  apply (Load_idempotent fullEnv (zeroStruct Env) loadedEnv).
  - apply wellTyped_zeroStruct.
  - vm_compute. reflexivity.
Defined.

(** ** The struct that [Load] is given *)

Lemma assignFieldValue_ok_field (e e1 : Struct) (i : nat) (v : Value) :
  assignFieldValue e i v = (e1, None) →
  ∃ fi, fields e !! i = Some fi ∧ PkgPath fi = "" ∧ Type_ fi = Value_Type v.
Proof.
  unfold assignFieldValue. intros H.
  destruct (fields e !! i) as [fi|]; [|done].
  destruct (String.eqb_spec (PkgPath fi) ""); simpl in H; [|done].
  case_bool_decide; simpl in H; [|done]. eauto.
Qed.

Lemma LoadLoop_wellTyped `{lib : GoLib} (env : gmap string string) (t : list StructField)
    (i : nat) (e e' : Struct) (r : option error) :
  wellTyped e → LoadLoop env t i e = (e', r) → wellTyped e'.
Proof.
  revert i e. induction t as [|f t IH]; intros i e Hwt; simpl.
  - by intros [= <- <-].
  - destruct (parseValueFromEnv env f) as [v|]; [|by intros [= <- <-]].
    destruct (validateConstraints env f); [by intros [= <- <-]|].
    destruct (assignFieldValue e i v) as [e1 [err|]] eqn:Ha.
    + intros [= <- <-]. by apply assignFieldValue_err in Ha as ->.
    + apply IH.
      destruct (assignFieldValue_ok_field _ _ _ _ Ha) as (fi & Hfi & _ & Hty).
      pose proof (assignFieldValue_fields _ _ _ _ _ Ha) as Hf1.
      apply assignFieldValue_ok in Ha as [_ Hv1].
      unfold wellTyped. rewrite Hf1, Hv1, <- (list_insert_id (fields e) i fi Hfi).
      by apply Forall2_insert.
Qed.

(** X5.  [Load] keeps the struct well typed, whether it succeeds or fails:
    the struct type is the same afterwards, and every field holds a value of
    its declared type, since [assignFieldValue] sets a field only to a value
    of exactly that type. *)
Theorem Load_preserves_typing `{lib : GoLib} (env : gmap string string) (e e' : Struct)
    (r : option error) :
  wellTyped e →
  Load env e = (e', r) →
  fields e' = fields e ∧ wellTyped e'.
Proof.
  intros Hwt H. unfold Load in H. split.
  - by apply LoadLoop_frame in H as (? & _).
  - by eapply LoadLoop_wellTyped.
Qed.

Lemma Load_preserves_typing_witness :
  fields (fst (Load exampleEnv (zeroStruct Env))) = fields (zeroStruct Env)
  ∧ wellTyped (fst (Load exampleEnv (zeroStruct Env))).
Proof.
  apply (Load_preserves_typing exampleEnv (zeroStruct Env) _
           (Some (ErrParseFloat "VERSION" "Version" float64_type))).
  - apply wellTyped_zeroStruct.
  - vm_compute. reflexivity.
Defined.

(** X6.  The values that the struct holds when [Load] is called play no
    part: on two structs of the same type [Load] returns the same error, and
    when it succeeds it leaves the two structs equal. *)
Theorem Load_ignores_initial_values `{lib : GoLib} (env : gmap string string) (e1 e2 : Struct) :
  wellTyped e1 →
  wellTyped e2 →
  fields e1 = fields e2 →
  snd (Load env e1) = snd (Load env e2)
  ∧ (snd (Load env e1) = None → fst (Load env e1) = fst (Load env e2)).
Proof.
  intros Hwt1 Hwt2 Hf.
  assert (snd (Load env e1) = snd (Load env e2)) as Herr.
  { unfold Load. rewrite Hf. by apply LoadLoop_error_values. }
  split; [done|]. intros Hok.
  destruct (Load env e1) as [e1' r1] eqn:H1.
  destruct (Load env e2) as [e2' r2] eqn:H2.
  simpl in Herr, Hok. subst r1 r2.
  destruct (Load_ok_lookup env e1 e1' Hwt1 H1) as (Hf1 & Hl1 & Hok1).
  destruct (Load_ok_lookup env e2 e2' Hwt2 H2) as (Hf2 & Hl2 & Hok2).
  rewrite Hf in Hl1, Hok1.
  assert (values e1' = values e2') as Hv.
  { apply list_eq. intros k.
    destruct (fields e2 !! k) as [f|] eqn:Hk.
    - destruct (Hok1 k f Hk) as (v1 & Hp1 & _ & -> & _).
      destruct (Hok2 k f Hk) as (v2 & Hp2 & _ & -> & _). congruence.
    - apply lookup_ge_None in Hk.
      rewrite !(proj2 (lookup_ge_None _ _)) by lia. done. }
  destruct e1', e2'. simpl in *. congruence.
Qed.

(** The example struct with defaults filled in before the call. *)
Lemma Load_ignores_initial_values_witness :
  snd (Load fullEnv (zeroStruct Env)) = snd (Load fullEnv loadedEnv)
  ∧ (snd (Load fullEnv (zeroStruct Env)) = None →
     fst (Load fullEnv (zeroStruct Env)) = fst (Load fullEnv loadedEnv)).
Proof.
  apply (Load_ignores_initial_values fullEnv (zeroStruct Env) loadedEnv).
  - apply wellTyped_zeroStruct.
  - apply (LoadLoop_wellTyped fullEnv Env 0 (zeroStruct Env) loadedEnv None).
    + apply wellTyped_zeroStruct.
    + vm_compute. reflexivity.
  - vm_compute. reflexivity.
Defined.

(** X7.  After a successful [Load] the only variables that may have been
    without a value are those of optional [string] fields: the variable of a
    field without [optional] has a value, and so has the variable of every
    [int] and [float64] field, optional or not, because the empty string
    does not coerce to a number. *)
Theorem Load_success_values_present `{lib : GoLib} (env : gmap string string) (e e' : Struct) :
  strconv_Atoi "" = None →
  strconv_ParseFloat "" = None →
  wellTyped e →
  Load env e = (e', None) →
  Forall (fun f => isOptional f = false ∨ Type_ f ≠ string_type →
                   os_Getenv env (envKey f) ≠ "") (fields e).
Proof.
  intros HA HF Hwt H.
  destruct (Load_ok_lookup env e e' Hwt H) as (_ & _ & Hok).
  apply Forall_lookup. intros k f Hk Hcase Hempty.
  destruct (Hok k f Hk) as (v & Hp & Hv & _ & _ & Hty).
  destruct Hcase as [Hopt | Hns].
  - rewrite (validateConstraints_required env f Hopt Hempty) in Hv. done.
  - rewrite parseValueFromEnv_unfold, Hempty in Hp.
    destruct Hty as [Hty | [Hty | Hty]]; [done| |]; rewrite Hty in Hp; simpl in Hp.
    + by rewrite HA in Hp.
    + by rewrite HF in Hp.
Qed.

Lemma Load_success_values_present_witness :
  Forall (fun f => isOptional f = false ∨ Type_ f ≠ string_type →
                   os_Getenv fullEnv (envKey f) ≠ "") (fields (zeroStruct Env)).
Proof.
  apply (Load_success_values_present fullEnv (zeroStruct Env) loadedEnv).
  - reflexivity.
  - reflexivity.
  - apply wellTyped_zeroStruct.
  - vm_compute. reflexivity.
Defined.

(** ** Errors that do not leave the package *)

Section InnerErrors.
Context `{lib : GoLib}.
Variable env : gmap string string.

Lemma checkConstraint_not_inner (f : StructField) (key v c : string) (r : option error) :
  checkConstraint f key v c = Return r → isInnerError r = false.
Proof.
  unfold checkConstraint. intros H.
  repeat (case_match; simplify_eq); done.
Qed.

Lemma validateLoop_not_inner (f : StructField) (opts : list string) (key v : string)
    (rest : list string) :
  isInnerError (validateLoop f opts key v rest) = false.
Proof.
  induction rest as [|c rest IH]; simpl; [done|].
  case_match; [done|].
  destruct (checkConstraint f key v c) eqn:Hc; [done|].
  by eapply checkConstraint_not_inner.
Qed.

Lemma LoadLoop_not_inner (pre t : list StructField) (e : Struct) :
  fields e = (pre ++ t)%list →
  isInnerError (snd (LoadLoop env t (length pre) e)) = false.
Proof.
  revert pre e. induction t as [|f t IH]; intros pre e Hf; simpl; [done|].
  destruct (parseValueFromEnv env f) as [v|err] eqn:Hp.
  2:{ rewrite parseValueFromEnv_unfold in Hp.
      repeat (case_match; simplify_eq); done. }
  pose proof (validateLoop_not_inner f (tagOptions f) (envKey f)
                (os_Getenv env (envKey f)) (tagOptions f)) as Hv.
  rewrite <- validateConstraints_unfold in Hv.
  destruct (validateConstraints env f) as [err|]; [exact Hv|].
  destruct (assignFieldValue e (length pre) v) as [e1 [err|]] eqn:Ha.
  - unfold assignFieldValue in Ha. rewrite Hf, lookup_app_r, Nat.sub_diag in Ha by lia.
    simpl in Ha. repeat (case_match; simplify_eq); done.
  - pose proof (assignFieldValue_fields _ _ _ _ _ Ha) as Hf1.
    replace (S (length pre)) with (length (pre ++ [f])) by (rewrite length_app; simpl; lia).
    apply IH. by rewrite Hf1, Hf, <- app_assoc.
Qed.

End InnerErrors.

(** X8.  [Load] never returns the error of an invalid field, and never one
    of the two errors of [matchRegex].  [matchRegex] has one error for a
    pattern that does not compile and another for a value that does not
    match; the [regex=] clause of [validateConstraints] returns the same
    error for both, made of the key and the field name only, so the caller
    cannot tell the one from the other. *)
Theorem Load_hides_inner_errors `{lib : GoLib} :
  (∀ (env : gmap string string) (e : Struct), isInnerError (snd (Load env e)) = false)
  ∧ (∀ pattern v,
       regexp_Compile pattern = None →
       matchRegex pattern v = Err (ErrRegexCompile pattern))
  ∧ (∀ pattern v re,
       regexp_Compile pattern = Some re → Regexp_MatchString re v = false →
       matchRegex pattern v = Err ErrRegexNoMatch)
  ∧ (∀ (f : StructField) (key v pattern : string) (err : error),
       matchRegex pattern v = Err err →
       checkConstraint f key v ("regex=" +:+ pattern)
       = Return (Some (ErrRegex key (Name f))))
  ∧ (∀ (f : StructField) (key v pattern : string) (b : bool),
       matchRegex pattern v = Ok b →
       checkConstraint f key v ("regex=" +:+ pattern) = Next).
Proof.
  assert (∀ (f : StructField) (key v pattern : string),
            checkConstraint f key v ("regex=" +:+ pattern)
            = match matchRegex pattern v with
              | Err _ => Return (Some (ErrRegex key (Name f)))
              | Ok _ => Next
              end) as Hclause.
  { intros f key v pattern.
    assert (strings_HasPrefix pattern "" = true) as Hp by by destruct pattern.
    unfold checkConstraint, strings_TrimPrefix.
    change (strings_HasPrefix ("regex=" +:+ pattern) "oneof=") with false.
    change (strings_HasPrefix ("regex=" +:+ pattern) "min=") with false.
    change (strings_HasPrefix ("regex=" +:+ pattern) "max=") with false.
    change (strings_HasPrefix ("regex=" +:+ pattern) "regex=")
      with (strings_HasPrefix pattern "").
    rewrite Hp. cbv beta iota zeta.
    change (string_drop (String.length "regex=") ("regex=" +:+ pattern)) with pattern.
    reflexivity. }
  split_and!.
  - intros env e. apply (LoadLoop_not_inner env [] (fields e) e). done.
  - intros pattern v Hc. unfold matchRegex. by rewrite Hc.
  - intros pattern v re Hc Hm. unfold matchRegex. by rewrite Hc, Hm.
  - intros f key v pattern err Hm. by rewrite Hclause, Hm.
  - intros f key v pattern b Hm. by rewrite Hclause, Hm.
Qed.

(** A pattern that does not compile and a value that does not match, for the
    same field: one and the same error. *)
Lemma Load_hides_inner_errors_witness :
  checkConstraint (field "Host" string_type "HOST;regex=(") "HOST" "abc" ("regex=" +:+ "(")
  = Return (Some (ErrRegex "HOST" "Host"))
  ∧ checkConstraint (field "Host" string_type "HOST;regex=(") "HOST" "abc" ("regex=" +:+ "^x$")
    = Return (Some (ErrRegex "HOST" "Host")).
Proof.
  destruct (@Load_hides_inner_errors gostd) as (_ & Hcompile & Hmatch & Hclause & _).
  split.
  - apply (Hclause (field "Host" string_type "HOST;regex=(") "HOST" "abc" "("
             (ErrRegexCompile "(")).
    apply Hcompile. vm_compute. reflexivity.
  - apply (Hclause (field "Host" string_type "HOST;regex=(") "HOST" "abc" "^x$"
             ErrRegexNoMatch).
    destruct (std_regexp_Compile "^x$") as [re|] eqn:Hre; [|by vm_compute in Hre].
    apply (Hmatch "^x$" "abc" re Hre).
    vm_compute in Hre. injection Hre as <-. vm_compute. reflexivity.
Defined.

(** X12.  When [Load] fails on any struct, the fields from the failing one on
    keep the values that the caller had put there, and the fields before it
    hold their coerced values. *)
Theorem Load_fails_keeps_rest `{lib : GoLib} (env : gmap string string) (e e' : Struct)
    (err : error) :
  wellTyped e →
  Load env e = (e', Some err) →
  ∃ k f,
    fields e !! k = Some f
    ∧ failsAt env e' k f err
    ∧ (∀ j fj, (j < k)%nat → fields e !! j = Some fj → boundAt env e' j fj)
    ∧ (∀ j, (k ≤ j)%nat → values e' !! j = values e !! j).
Proof.
  intros Hwt H. unfold Load in H.
  apply LoadLoop_fails in H; [|by apply wellTyped_length].
  destruct H as (k & f & ? & ? & ? & ?). exists k, f. done.
Qed.

(** The struct of the example after a successful [Load], loaded again in an
    environment without [VERSION]: it fails at [Version], which keeps 1.5. *)
Lemma Load_fails_keeps_rest_witness :
  ∃ k f,
    fields loadedEnv !! k = Some f
    ∧ failsAt exampleEnv (fst (Load exampleEnv loadedEnv)) k f
        (ErrParseFloat "VERSION" "Version" float64_type)
    ∧ (∀ j fj, (j < k)%nat → fields loadedEnv !! j = Some fj →
               boundAt exampleEnv (fst (Load exampleEnv loadedEnv)) j fj)
    ∧ (∀ j, (k ≤ j)%nat →
            values (fst (Load exampleEnv loadedEnv)) !! j = values loadedEnv !! j).
Proof.
  apply (Load_fails_keeps_rest exampleEnv loadedEnv).
  - apply (LoadLoop_wellTyped fullEnv Env 0 (zeroStruct Env) loadedEnv None).
    + apply wellTyped_zeroStruct.
    + vm_compute. reflexivity.
  - vm_compute. reflexivity.
Defined.

(** ** The clause [oneof=] *)

Lemma string_app_cons (c : ascii) (s t : string) : String c s +:+ t = String c (s +:+ t).
Proof. reflexivity. Qed.

Lemma string_app_nil_r (s : string) : s +:+ "" = s.
Proof.
  induction s as [|a s IH]; [reflexivity|]. by rewrite string_app_cons, IH.
Qed.

Lemma string_app_snoc (cur : string) (c : ascii) (o : string) :
  (cur +:+ String c "") +:+ o = cur +:+ String c o.
Proof.
  induction cur as [|a cur IH]; [reflexivity|]. by rewrite !string_app_cons, IH.
Qed.

(** Splitting at commas a text that starts with an option without comma:
    the option ends the piece being read. *)
Lemma split_from_comma (o cur : string) :
  strings_ContainsByte o "," = false →
  split_from "," 0 cur o = [cur +:+ o]
  ∧ ∀ s, split_from "," 0 cur (o +:+ String "," s) = (cur +:+ o) :: split_from "," 0 "" s.
Proof.
  unfold strings_ContainsByte. revert cur.
  induction o as [|c o IH]; intros cur.
  - intros _. rewrite string_app_nil_r. split; [done|]. intros s.
    change ("" +:+ String "," s) with (String "," s). cbn [split_from].
    assert (String.prefix "," (String "," s) = true) as -> by by destruct s.
    reflexivity.
  - cbn [list_ascii_of_string existsb]. intros Ho.
    apply orb_false_elim in Ho as [Hc Ho].
    assert (∀ t, String.prefix "," (String c t) = false) as Hpre.
    { intros t. cbn [String.prefix].
      destruct (ascii_dec "," c) as [<-|]; [|reflexivity].
      by rewrite Ascii.eqb_refl in Hc. }
    destruct (IH (cur +:+ String c "") Ho) as [H1 H2].
    split.
    + cbn [split_from]. by rewrite Hpre, H1, string_app_snoc.
    + intros s. rewrite string_app_cons. cbn [split_from].
      by rewrite Hpre, H2, string_app_snoc.
Qed.

(** Joining options that have no comma with commas and splitting the result
    gives the options back. *)
Lemma strings_Split_concat (opts : list string) :
  opts ≠ [] →
  Forall (fun o => strings_ContainsByte o "," = false) opts →
  strings_Split (String.concat "," opts) "," = opts.
Proof.
  unfold strings_Split. simpl.
  induction opts as [|o opts IH]; [done|]. intros _ Hall.
  apply Forall_cons in Hall as [Ho Hall].
  destruct (split_from_comma o "" Ho) as [H1 H2].
  destruct opts as [|o' opts].
  - simpl. by rewrite H1.
  - change (String.concat "," (o :: o' :: opts))
      with (o +:+ String "," (String.concat "," (o' :: opts))).
    rewrite H2. simpl "+:+". f_equal. by apply IH.
Qed.

Lemma slices_Contains_spec (l : list string) (v : string) :
  slices_Contains l v = true ↔ v ∈ l.
Proof.
  unfold slices_Contains. rewrite existsb_exists. split.
  - intros (x & Hin & Heq). apply String.eqb_eq in Heq as ->.
    by apply list_elem_of_In.
  - intros Hin. exists v. split; [by apply list_elem_of_In | apply String.eqb_refl].
Qed.

(** The clause [oneof=] on a list of options without commas. *)
Lemma checkConstraint_oneof `{lib : GoLib} (f : StructField) (key v : string)
    (opts : list string) :
  opts ≠ [] →
  Forall (fun o => strings_ContainsByte o "," = false) opts →
  checkConstraint f key v ("oneof=" +:+ String.concat "," opts)
  = if slices_Contains opts v then Next
    else Return (Some (ErrOneOf (Name f) v (String.concat "," opts))).
Proof.
  intros Hne Hall. unfold checkConstraint.
  change (strings_HasPrefix ("oneof=" +:+ String.concat "," opts) "oneof=")
    with (strings_HasPrefix (String.concat "," opts) "").
  assert (strings_HasPrefix (String.concat "," opts) "" = true) as ->
    by by destruct (String.concat "," opts).
  assert (strings_TrimPrefix ("oneof=" +:+ String.concat "," opts) "oneof="
          = String.concat "," opts) as ->.
  { unfold strings_TrimPrefix.
    change (strings_HasPrefix ("oneof=" +:+ String.concat "," opts) "oneof=")
      with (strings_HasPrefix (String.concat "," opts) "").
    by destruct (String.concat "," opts). }
  cbv zeta. rewrite (strings_Split_concat opts Hne Hall).
  by destruct (slices_Contains opts v).
Qed.

(** X9.  The clause [oneof=] followed by a list of options joined with
    commas, none of which has a comma in it, accepts exactly the options of
    the list, byte for byte, and fails with the error of the clause for any
    other value, a prefix or another letter case of an option included. *)
Theorem oneof_accepts_exactly `{lib : GoLib} (f : StructField) (key v : string)
    (opts : list string) :
  opts ≠ [] →
  Forall (fun o => strings_ContainsByte o "," = false) opts →
  (v ∈ opts →
   checkConstraint f key v ("oneof=" +:+ String.concat "," opts) = Next)
  ∧ (v ∉ opts →
     checkConstraint f key v ("oneof=" +:+ String.concat "," opts)
     = Return (Some (ErrOneOf (Name f) v (String.concat "," opts)))).
Proof.
  intros Hne Hall. rewrite (checkConstraint_oneof f key v opts Hne Hall).
  split; intros Hv.
  - apply slices_Contains_spec in Hv. by rewrite Hv.
  - destruct (slices_Contains opts v) eqn:Hc; [|done].
    by apply slices_Contains_spec in Hc.
Qed.

(** The list of the example: [staging] is accepted. *)
Lemma oneof_accepts_exactly_witness :
  checkConstraint (field "Environment" string_type
                     "ENVIRONMENT;oneof=development,test,staging,production")
    "ENVIRONMENT" "staging"
    ("oneof=" +:+ String.concat "," ["development"; "test"; "staging"; "production"])
  = Next.
Proof.
  apply (oneof_accepts_exactly _ "ENVIRONMENT" "staging"
           ["development"; "test"; "staging"; "production"]).
  - discriminate.
  - repeat constructor.
  - set_solver.
Defined.

(** ** Clauses without a case, and bounds that are not numbers *)

Lemma checkConstraint_unrecognized `{lib : GoLib} (f : StructField) (key v c : string) :
  recognized c = false → checkConstraint f key v c = Next.
Proof.
  unfold recognized, checkConstraint. intros H.
  repeat (apply orb_false_elim in H as [H ?]).
  by repeat match goal with Hp : strings_HasPrefix c _ = false |- _ => rewrite Hp; clear Hp end.
Qed.

Lemma validateLoop_filter `{lib : GoLib} (f : StructField) (opts : list string)
    (key v : string) (rest : list string) :
  v ≠ "" ∨ slices_Contains opts "optional" = true →
  validateLoop f opts key v rest
  = validateLoop f opts key v (List.filter recognized rest).
Proof.
  intros Hpresent.
  assert (String.eqb v "" && negb (slices_Contains opts "optional") = false) as Hp.
  { destruct Hpresent as [Hv | ->]; [|by rewrite andb_false_r].
    apply String.eqb_neq in Hv. by rewrite Hv. }
  induction rest as [|c rest IH]; [done|].
  cbn [validateLoop List.filter]. rewrite Hp.
  destruct (recognized c) eqn:Hc.
  - cbn [validateLoop]. rewrite Hp. by rewrite IH.
  - by rewrite checkConstraint_unrecognized.
Qed.

Lemma validateConstraints_recognized `{lib : GoLib} (env : gmap string string)
    (f : StructField) :
  os_Getenv env (envKey f) ≠ "" ∨ isOptional f = true →
  validateConstraints env f
  = validateLoop f (tagOptions f) (envKey f) (os_Getenv env (envKey f))
      (List.filter recognized (tagOptions f)).
Proof. intros Hpresent. rewrite validateConstraints_unfold. by apply validateLoop_filter. Qed.

(** X10.  A clause for which the [switch] has no case is skipped without an
    error: [optional] itself, a misspelt kind, a kind in another letter case
    or with a space before it.  For a value that is there, or an optional
    field, [validateConstraints] returns what it returns for the recognized
    clauses alone; with no recognized clause at all it returns [nil]. *)
Theorem unrecognized_clauses_ignored `{lib : GoLib} (env : gmap string string)
    (f : StructField) :
  os_Getenv env (envKey f) ≠ "" ∨ isOptional f = true →
  validateConstraints env f
  = validateLoop f (tagOptions f) (envKey f) (os_Getenv env (envKey f))
      (List.filter recognized (tagOptions f))
  ∧ (List.filter recognized (tagOptions f) = [] → validateConstraints env f = None).
Proof.
  intros Hpresent.
  pose proof (validateConstraints_recognized env f Hpresent) as Heq.
  split; [done|]. intros Hnone. by rewrite Heq, Hnone.
Qed.

(** A field with clauses that look like constraints and are none. *)
Lemma unrecognized_clauses_ignored_witness :
  validateConstraints {["PORT" := "abc"]}
    (field "Port" string_type "PORT;Min=5; max=9;one_of=a,b;required") = None.
Proof.
  apply (unrecognized_clauses_ignored {["PORT" := "abc"]}
           (field "Port" string_type "PORT;Min=5; max=9;one_of=a,b;required")).
  - left. vm_compute. discriminate.
  - vm_compute. reflexivity.
Defined.

(** X11.  The bounds are compared as [float64] with [<] and [>], which are
    false when a side is not a number: the value [NaN] passes every [min=]
    and [max=] clause, and a bound that parses to NaN lets every number
    pass. *)
Theorem NaN_passes_bounds `{lib : GoLib} (f : StructField) (key v arg : string)
    (x m : float64) :
  strconv_ParseFloat v = Some x →
  strconv_ParseFloat arg = Some m →
  x = S754_nan ∨ m = S754_nan →
  checkConstraint f key v ("min=" +:+ arg) = Next
  ∧ checkConstraint f key v ("max=" +:+ arg) = Next.
Proof.
  intros Hx Hm Hnan.
  assert (SFltb x m = false ∧ SFltb m x = false) as [Hlt Hgt].
  { destruct Hnan as [-> | ->]; [by destruct m | by destruct x]. }
  assert (strings_HasPrefix arg "" = true) as Hp by by destruct arg.
  unfold checkConstraint, strings_TrimPrefix. split.
  - change (strings_HasPrefix ("min=" +:+ arg) "oneof=") with false.
    change (strings_HasPrefix ("min=" +:+ arg) "min=") with (strings_HasPrefix arg "").
    rewrite Hp. cbv beta iota zeta.
    change (string_drop (String.length "min=") ("min=" +:+ arg)) with arg.
    by rewrite Hm, Hx, Hlt.
  - change (strings_HasPrefix ("max=" +:+ arg) "oneof=") with false.
    change (strings_HasPrefix ("max=" +:+ arg) "min=") with false.
    change (strings_HasPrefix ("max=" +:+ arg) "max=") with (strings_HasPrefix arg "").
    rewrite Hp. cbv beta iota zeta.
    change (string_drop (String.length "max=") ("max=" +:+ arg)) with arg.
    by rewrite Hm, Hx, Hgt.
Qed.

Lemma NaN_passes_bounds_witness :
  checkConstraint Concurrency "CONCURRENCY" "NaN" ("min=" +:+ "1") = Next
  ∧ checkConstraint Concurrency "CONCURRENCY" "NaN" ("max=" +:+ "1") = Next.
Proof.
  apply (NaN_passes_bounds Concurrency "CONCURRENCY" "NaN" "1" S754_nan
           (S754_finite false 4503599627370496 (-52)));
    [vm_compute; reflexivity .. | by left].
Defined.

(** ** The example program *)

(** The [switch] on a clause that is written out: its tests of the prefix
    are decided by computation. *)
Ltac eval_prefixes H :=
  unfold checkConstraint in H;
  repeat match type of H with
         | context [strings_HasPrefix ?a ?b] =>
             let r := eval vm_compute in (strings_HasPrefix a b) in
             change (strings_HasPrefix a b) with r in H
         end;
  cbv beta iota zeta in H;
  repeat match type of H with
         | context [strings_TrimPrefix ?a ?b] =>
             let r := eval vm_compute in (strings_TrimPrefix a b) in
             change (strings_TrimPrefix a b) with r in H
         end.

(** X13.  Whatever the standard library does, [NewEnv] of the example
    program returns (rather than ending the process) only in an environment
    where [ENVIRONMENT] is one of the four names of the list, the five other
    text variables are set, the pattern of [PUBSUB_EMULATOR_HOST] compiles
    and matches its value, [CONCURRENCY] is an [int] that as a [float64] is
    not below 1, and [VERSION] is a [float64], although its field is marked
    [optional]; the struct it returns holds these values, field by field. *)
Theorem NewEnv_returns `{lib : GoLib} (env : gmap string string) (e : Struct) :
  NewEnv env = Ok e →
  ∃ version concurrency,
    strconv_ParseFloat (os_Getenv env "VERSION") = Some version
    ∧ strconv_Atoi (os_Getenv env "CONCURRENCY") = Some concurrency
    ∧ os_Getenv env "ENVIRONMENT" ∈ ["development"; "test"; "staging"; "production"]
    ∧ Forall (fun key => os_Getenv env key ≠ "")
        ["ENCRYPTION_KEY"; "FETCH_SYSTEM_TOKEN"; "POST_SYSTEM_TOKEN";
         "PUBSUB_EMULATOR_HOST"; "PUBSUB_PROJECT_ID"]
    ∧ (∃ re, regexp_Compile "'(http|https)://(localhost|127.0.0.1):[0-9]+'" = Some re
             ∧ Regexp_MatchString re (os_Getenv env "PUBSUB_EMULATOR_HOST") = true)
    ∧ (∃ one c, strconv_ParseFloat "1" = Some one
                ∧ strconv_ParseFloat (os_Getenv env "CONCURRENCY") = Some c
                ∧ SFltb c one = false)
    ∧ values e
      = [ VString (os_Getenv env "ENVIRONMENT");
          VString (os_Getenv env "ENCRYPTION_KEY");
          VString (os_Getenv env "FETCH_SYSTEM_TOKEN");
          VString (os_Getenv env "POST_SYSTEM_TOKEN");
          VString (os_Getenv env "PUBSUB_EMULATOR_HOST");
          VString (os_Getenv env "PUBSUB_PROJECT_ID");
          VFloat64 version;
          VInt concurrency ].
Proof.
  unfold NewEnv. intros H.
  destruct (Load env (zeroStruct Env)) as [e0 [err|]] eqn:HL; simplify_eq.
  destruct (Load_ok_lookup env _ _ (wellTyped_zeroStruct Env) HL) as (_ & Hlen & Hok).
  change (fields (zeroStruct Env)) with Env in Hlen, Hok.
  assert (∀ k name t tag key,
            Env !! k = Some (field name t tag) →
            envKey (field name t tag) = key →
            isOptional (field name t tag) = false →
            os_Getenv env key ≠ "") as Hreq.
  { intros k name t tag key Hk <- Hopt Hempty.
    destruct (Hok k _ Hk) as (v & _ & Hv & _).
    by rewrite (validateConstraints_required env _ Hopt Hempty) in Hv. }
  assert (os_Getenv env "ENVIRONMENT" ≠ "") as Hne0
    by by apply (Hreq 0%nat "Environment" string_type
                   "ENVIRONMENT;oneof=development,test,staging,production").
  assert (os_Getenv env "PUBSUB_EMULATOR_HOST" ≠ "") as Hne4
    by by apply (Hreq 4%nat "PubsubHostURL" string_type
                   "PUBSUB_EMULATOR_HOST;regex='(http|https)://(localhost|127.0.0.1):[0-9]+'").
  assert (os_Getenv env "CONCURRENCY" ≠ "") as Hne7
    by by apply (Hreq 7%nat "Concurrency" int_type "CONCURRENCY;min=1").
  pose proof (Hok 0%nat _ eq_refl) as (v0 & Hp0 & Henv & Hv0 & _).
  pose proof (Hok 1%nat _ eq_refl) as (v1 & Hp1 & _ & Hv1 & _).
  pose proof (Hok 2%nat _ eq_refl) as (v2 & Hp2 & _ & Hv2 & _).
  pose proof (Hok 3%nat _ eq_refl) as (v3 & Hp3 & _ & Hv3 & _).
  pose proof (Hok 4%nat _ eq_refl) as (v4 & Hp4 & Hregex & Hv4 & _).
  pose proof (Hok 5%nat _ eq_refl) as (v5 & Hp5 & _ & Hv5 & _).
  pose proof (Hok 6%nat _ eq_refl) as (v6 & Hp6 & _ & Hv6 & _).
  pose proof (Hok 7%nat _ eq_refl) as (v7 & Hp7 & Hmin & Hv7 & _).
  repeat match goal with
         | Hp : parseValueFromEnv env ?f = Ok _ |- _ =>
             rewrite parseValueFromEnv_unfold in Hp;
             let k := eval vm_compute in (envKey f) in
             change (envKey f) with k in Hp;
             let kd := eval vm_compute in (rtype_Kind (Type_ f)) in
             change (rtype_Kind (Type_ f)) with kd in Hp;
             cbv beta iota in Hp
         end.
  destruct (strconv_ParseFloat (os_Getenv env "VERSION")) as [version|]; [|done].
  destruct (strconv_Atoi (os_Getenv env "CONCURRENCY")) as [concurrency|]; [|done].
  simplify_eq. exists version, concurrency. split_and!; [done | done | | | | |].
  - destruct (decide (os_Getenv env "ENVIRONMENT"
                      ∈ ["development"; "test"; "staging"; "production"]))
      as [|Hnot]; [done|exfalso].
    rewrite validateConstraints_recognized in Henv by by left.
    change (List.filter recognized (tagOptions _))
      with ["oneof=" +:+ String.concat "," ["development"; "test"; "staging"; "production"]]
      in Henv.
    cbn [validateLoop] in Henv.
    apply String.eqb_neq in Hne0.
    change (envKey _) with "ENVIRONMENT" in Henv. rewrite Hne0 in Henv. cbn [andb] in Henv.
    rewrite checkConstraint_oneof in Henv; [|done|repeat constructor].
    destruct (slices_Contains _ (os_Getenv env "ENVIRONMENT")) eqn:Hc; [|done].
    by apply slices_Contains_spec in Hc.
  - repeat apply Forall_cons_2; [..|apply Forall_nil_2].
    + by apply (Hreq 1%nat "EncryptionKey" string_type "ENCRYPTION_KEY").
    + by apply (Hreq 2%nat "APITokenSystems" string_type "FETCH_SYSTEM_TOKEN").
    + by apply (Hreq 3%nat "APITokenIntegrations" string_type "POST_SYSTEM_TOKEN").
    + done.
    + by apply (Hreq 5%nat "PubsubProjectID" string_type "PUBSUB_PROJECT_ID").
  - rewrite validateConstraints_recognized in Hregex by by left.
    change (List.filter recognized (tagOptions _))
      with ["regex='(http|https)://(localhost|127.0.0.1):[0-9]+'"] in Hregex.
    cbn [validateLoop] in Hregex.
    apply String.eqb_neq in Hne4.
    change (envKey _) with "PUBSUB_EMULATOR_HOST" in Hregex.
    rewrite Hne4 in Hregex. cbn [andb] in Hregex.
    eval_prefixes Hregex. unfold matchRegex in Hregex.
    destruct (regexp_Compile _) as [re|]; [|done].
    destruct (Regexp_MatchString re _) eqn:Hm; [|done]. eauto.
  - rewrite validateConstraints_recognized in Hmin by by left.
    change (List.filter recognized (tagOptions _)) with ["min=1"] in Hmin.
    cbn [validateLoop] in Hmin.
    apply String.eqb_neq in Hne7.
    change (envKey _) with "CONCURRENCY" in Hmin.
    rewrite Hne7 in Hmin. cbn [andb] in Hmin.
    eval_prefixes Hmin.
    destruct (strconv_ParseFloat "1") as [one|]; [|done].
    destruct (strconv_ParseFloat (os_Getenv env "CONCURRENCY")) as [c|]; [|done].
    destruct (SFltb c one) eqn:Hlt; [done|]. eauto.
  - apply list_eq. intros k.
    do 8 (destruct k as [|k]; [done|]).
    simpl. apply lookup_ge_None. simpl in Hlen. lia.
Qed.

Lemma NewEnv_returns_witness :
  ∃ version concurrency,
    std_ParseFloat (os_Getenv fullEnv "VERSION") = Some version
    ∧ std_Atoi (os_Getenv fullEnv "CONCURRENCY") = Some concurrency
    ∧ os_Getenv fullEnv "ENVIRONMENT" ∈ ["development"; "test"; "staging"; "production"]
    ∧ Forall (fun key => os_Getenv fullEnv key ≠ "")
        ["ENCRYPTION_KEY"; "FETCH_SYSTEM_TOKEN"; "POST_SYSTEM_TOKEN";
         "PUBSUB_EMULATOR_HOST"; "PUBSUB_PROJECT_ID"]
    ∧ (∃ re, std_regexp_Compile "'(http|https)://(localhost|127.0.0.1):[0-9]+'" = Some re
             ∧ std_MatchString re (os_Getenv fullEnv "PUBSUB_EMULATOR_HOST") = true)
    ∧ (∃ one c, std_ParseFloat "1" = Some one
                ∧ std_ParseFloat (os_Getenv fullEnv "CONCURRENCY") = Some c
                ∧ SFltb c one = false)
    ∧ values loadedEnv
      = [ VString (os_Getenv fullEnv "ENVIRONMENT");
          VString (os_Getenv fullEnv "ENCRYPTION_KEY");
          VString (os_Getenv fullEnv "FETCH_SYSTEM_TOKEN");
          VString (os_Getenv fullEnv "POST_SYSTEM_TOKEN");
          VString (os_Getenv fullEnv "PUBSUB_EMULATOR_HOST");
          VString (os_Getenv fullEnv "PUBSUB_PROJECT_ID");
          VFloat64 version;
          VInt concurrency ].
Proof.
  apply (@NewEnv_returns gostd fullEnv loadedEnv). vm_compute. reflexivity.
Defined.

(** ** When [Load] succeeds *)

Lemma LoadLoop_succeeds `{lib : GoLib} (env : gmap string string)
    (pre t : list StructField) (e : Struct) :
  fields e = (pre ++ t)%list →
  Forall (fun f => settable f
                   ∧ (∃ v, parseValueFromEnv env f = Ok v)
                   ∧ validateConstraints env f = None) t →
  snd (LoadLoop env t (length pre) e) = None.
Proof.
  revert pre e. induction t as [|f t IH]; intros pre e Hf Hall; simpl; [done|].
  apply Forall_cons in Hall as [([Hpkg Hty] & [v Hp] & Hv) Hall].
  rewrite Hp, Hv.
  assert (Type_ f = Value_Type v) as Htv.
  { rewrite parseValueFromEnv_unfold in Hp.
    destruct Hty as [Hty | [Hty | Hty]]; rewrite Hty in Hp |- *; simpl in Hp;
      simplify_eq; repeat (case_match; simplify_eq); done. }
  unfold assignFieldValue.
  rewrite Hf, lookup_app_r, Nat.sub_diag by lia. simpl.
  rewrite Hpkg. simpl. rewrite bool_decide_eq_true_2 by done. simpl.
  replace (S (length pre)) with (length (pre ++ [f])) by (rewrite length_app; simpl; lia).
  apply IH; [|done]. simpl. by rewrite <- app_assoc.
Qed.

(** X3.  [Load] returns [nil] exactly when every field of the struct is
    exported and of the type [string], [int] or [float64] itself, the value
    of its variable coerces to that type, and [validateConstraints] accepts
    the field. *)
Theorem Load_succeeds_iff `{lib : GoLib} (env : gmap string string) (e : Struct) :
  wellTyped e →
  snd (Load env e) = None
  ↔ Forall (fun f => settable f
                     ∧ (∃ v, parseValueFromEnv env f = Ok v)
                     ∧ validateConstraints env f = None) (fields e).
Proof.
  intros Hwt. split.
  - intros H. destruct (Load env e) as [e' r] eqn:HL. simpl in H. subst r.
    destruct (Load_ok_lookup env e e' Hwt HL) as (_ & _ & Hok).
    apply Forall_lookup. intros k f Hk.
    destruct (Hok k f Hk) as (v & Hp & Hv & _ & Hset). eauto.
  - intros Hall. by apply (LoadLoop_succeeds env [] (fields e) e).
Qed.

Lemma Load_succeeds_iff_witness :
  snd (Load fullEnv (zeroStruct Env)) = None
  ↔ Forall (fun f => settable f
                     ∧ (∃ v, parseValueFromEnv fullEnv f = Ok v)
                     ∧ validateConstraints fullEnv f = None) (fields (zeroStruct Env)).
Proof.
  apply (Load_succeeds_iff fullEnv (zeroStruct Env)). apply wellTyped_zeroStruct.
Defined.

(** ** The values that [format=URL] accepts *)

Lemma lower_idem (c : ascii) : lower (lower c) = lower c.
Proof. destruct c as [[] [] [] [] [] [] [] []]; reflexivity. Qed.

Lemma strings_ToLower_idem (s : string) : strings_ToLower (strings_ToLower s) = strings_ToLower s.
Proof. induction s as [|c s IH]; simpl; [done|]. by rewrite lower_idem, IH. Qed.

Lemma strings_ToLower_app (s t : string) :
  strings_ToLower (s +:+ t) = strings_ToLower s +:+ strings_ToLower t.
Proof.
  induction s as [|c s IH]; [reflexivity|].
  rewrite string_app_cons. simpl. by rewrite IH.
Qed.

Lemma string_app_assoc (s t u : string) : (s +:+ t) +:+ u = s +:+ (t +:+ u).
Proof.
  induction s as [|c s IH]; [reflexivity|]. by rewrite !string_app_cons, IH.
Qed.

Lemma string_length_snoc (s : string) (c : ascii) :
  String.length (s +:+ String c "") = S (String.length s).
Proof. induction s as [|a s IH]; [reflexivity|]. rewrite string_app_cons. simpl. by rewrite IH. Qed.

Lemma substring_app_prefix (s t : string) :
  String.substring 0 (String.length s) (s +:+ t) = s.
Proof.
  induction s as [|a s IH].
  - by destruct t.
  - rewrite string_app_cons. simpl. by rewrite IH.
Qed.

(** The text before the separator is a prefix of the text that is cut. *)
Lemma strings_Cut_prefix (s : string) (sep : ascii) :
  ∃ t, s = fst (strings_Cut s sep) +:+ t.
Proof.
  induction s as [|c s [t IH]]; simpl.
  - by exists "".
  - destruct (Ascii.eqb c sep); [by exists (String c s)|].
    destruct (strings_Cut s sep) as [before after]. simpl in *.
    exists t. rewrite string_app_cons. by rewrite <- IH.
Qed.

(** A scheme that [getScheme] finds stands before the first colon. *)
Lemma getSchemeLoop_scheme (rawURL pre s scheme rest : string) :
  rawURL = pre +:+ s →
  getSchemeLoop rawURL (String.length pre) s = Some (scheme, rest) →
  scheme ≠ "" →
  rawURL = scheme +:+ String ":" rest.
Proof.
  revert pre. induction s as [|c s IH]; intros pre Hraw; simpl; [by intros [= <- <-]|].
  assert (rawURL = (pre +:+ String c "") +:+ s) as Hnext
    by by rewrite string_app_snoc.
  assert (S (String.length pre) = String.length (pre +:+ String c "")) as Hlen
    by by rewrite string_length_snoc.
  destruct (isLetter c).
  { rewrite Hlen. by apply IH. }
  destruct (isDigit c || Ascii.eqb c "+" || Ascii.eqb c "-" || Ascii.eqb c ".").
  { destruct (String.length pre =? 0)%nat; [by intros [= <- <-]|].
    rewrite Hlen. by apply IH. }
  destruct (Ascii.eqb_spec c ":") as [->|]; [|by intros [= <- <-]].
  destruct (String.length pre =? 0)%nat; [done|].
  intros [= <- <-] _. by rewrite Hraw, substring_app_prefix.
Qed.

(** X14.  A value that [format=URL] accepts starts with [http://] or
    [https://], in any letter case: [isValidURL] asks for one of the two
    schemes and for a host, and [url.Parse] finds a host only after the two
    slashes that follow the scheme. *)
Theorem isValidURL_prefix (v : string) :
  @isValidURL gostd v = true →
  strings_HasPrefix (strings_ToLower v) "http://" = true
  ∨ strings_HasPrefix (strings_ToLower v) "https://" = true.
Proof.
  unfold isValidURL. change (@url_Parse gostd v) with (std_url_Parse v).
  destruct (std_url_Parse v) as [u|] eqn:Hu; [|done].
  destruct (String.eqb_spec (Scheme u) "") as [|Hscheme]; [done|].
  destruct (String.eqb_spec (Host u) "") as [|Hhost]; [done|]. simpl.
  rewrite orb_false_r. intros Hfold.
  unfold std_url_Parse in Hu.
  destruct (strings_Cut_prefix v "#") as [t2 Hv].
  destruct (strings_Cut v "#") as [u0 frag]. simpl in Hv.
  destruct (url_parse u0) as [url|] eqn:Hparse; [|done]. simpl in Hu.
  destruct (validEscapes frag); [|done]. simplify_eq.
  unfold url_parse in Hparse.
  destruct (stringContainsCTLByte u0); [done|].
  destruct (String.eqb u0 "*"); [by simplify_eq|].
  destruct (getScheme u0) as [[scheme rest]|] eqn:Hgs; [|done]. simpl in Hparse.
  destruct (strings_Cut_prefix rest "?") as [t1 Hrest].
  destruct (strings_Cut rest "?") as [rest0 query]. simpl in Hrest, Hparse.
  destruct (negb (strings_HasPrefix rest0 "/")
            && negb (String.eqb (strings_ToLower scheme) "")); [by simplify_eq|].
  destruct (negb (strings_HasPrefix rest0 "/")
            && String.eqb (strings_ToLower scheme) ""
            && strings_ContainsByte (strings_Cut rest0 "/").1 ":"); [done|].
  destruct ((negb (String.eqb (strings_ToLower scheme) "")
             || negb (strings_HasPrefix rest0 "///"))
            && strings_HasPrefix rest0 "//") eqn:Hauth.
  2:{ destruct (validEscapes rest0); by simplify_eq. }
  apply andb_prop in Hauth as [_ Hslashes].
  assert (∃ w, rest0 = String "/" (String "/" w)) as [w ->].
  { unfold strings_HasPrefix in Hslashes.
    destruct rest0 as [|a [|b w]]; cbn [String.prefix] in Hslashes; try done.
    - by destruct (ascii_dec "/" a).
    - destruct (ascii_dec "/" a) as [<-|]; [|done].
      destruct (ascii_dec "/" b) as [<-|]; [|done]. eauto. }
  destruct (parseAuthority _) as [host|]; [|done]. simpl in Hparse.
  destruct (validEscapes _); [|done]. simplify_eq. simpl in *.
  assert (scheme ≠ "") as Hne by by intros ->.
  pose proof (getSchemeLoop_scheme u0 "" u0 scheme _ eq_refl Hgs Hne) as ->.
  rewrite string_app_assoc, !string_app_cons, strings_ToLower_app.
  assert (∀ x, strings_HasPrefix x "" = true) as Hnil by by intros [].
  unfold strings_EqualFold in Hfold. rewrite strings_ToLower_idem in Hfold.
  apply orb_prop in Hfold as [Hs | Hs]; apply String.eqb_eq in Hs; rewrite Hs.
  - left. apply Hnil.
  - right. apply Hnil.
Qed.

Lemma isValidURL_prefix_witness :
  strings_HasPrefix (strings_ToLower "HTTPS://example.com/path") "http://" = true
  ∨ strings_HasPrefix (strings_ToLower "HTTPS://example.com/path") "https://" = true.
Proof. apply (isValidURL_prefix "HTTPS://example.com/path"). vm_compute. reflexivity. Defined.
